(** * RoadAmico server controllers: events and lists

    A shallow embedding of [server/api/event/event.controller.js] and of the
    list controller, with the properties of the authorization predicates and
    of the request handlers.

    Documents are records, request bodies are records of optional fields,
    collections are finite maps from identifiers to documents, and handlers
    are computations in a small state-and-exception monad over the world a
    request runs in (collections, notification sink, console, wall clock). *)

From stdpp Require Import base option list strings pretty gmap.

(** ** Values *)

(** A MongoDB object identifier, by its hexadecimal rendering. *)
Abbreviation ObjectId := string (only parsing).

(** [a.equals(b)] on object identifiers. *)
Definition equals (a b : ObjectId) : bool := bool_decide (a = b).

(** An ISO-8601 instant as produced by [moment().toISOString()]. *)
Abbreviation Timestamp := string (only parsing).

(** JavaScript truthiness of a possibly absent string field: absent and the
    empty string are falsy. *)
Definition truthy (v : option string) : bool :=
  match v with
  | Some s => negb (bool_decide (s = ""))
  | None => false
  end.

(** Truthiness of a possibly absent object (arrays included): every object
    is truthy, also the empty array. *)
Definition defined {A} (v : option A) : bool :=
  match v with Some _ => true | None => false end.

(** [x || y] on possibly absent strings. *)
Definition or_else (x y : option string) : option string :=
  if truthy x then x else y.

(** ** The part of lodash the controllers use *)

Module lodash.

(** [_.find(collection, callback)]: the first element the callback accepts;
    [undefined] when there is none or when the collection is absent. *)
Definition find {A} (collection : option (list A)) (callback : A → bool)
  : option A :=
  match collection with
  | Some l => List.find callback l
  | None => None
  end.

(** [_.findIndex(array, callback)]: the index of the first accepted
    element; [None] stands for the source's [-1]. *)
Fixpoint findIndex {A} (array : list A) (callback : A → bool) : option nat :=
  match array with
  | [] => None
  | x :: rest =>
      if callback x then Some 0 else S <$> findIndex rest callback
  end.

(** [_.filter(collection, callback)]. *)
Definition filter {A} (collection : list A) (callback : A → bool) : list A :=
  List.filter callback collection.

(** [_(collection).pluck(key)] with the key given as a projection. *)
Definition pluck {A B} (collection : list A) (key : A → B) : list B :=
  key <$> collection.

(** A JavaScript function object taking one more argument. *)
Record function (B R : Type) := Function { call : B → R }.
Arguments Function {B R} call.
Arguments call {B R} f b.

(** A two-argument function wrapped by [_.curry] and called with its first
    argument only: the call does not run the body, it yields a function
    waiting for the second argument. *)
Definition curry1 {A B R} (f : A → B → R) (a : A) : function B R :=
  Function (f a).

(** Truthiness of a function object: a function is an object, and every
    object is truthy whatever it would return when called. *)
Definition truthy {B R} (f : function B R) : bool := true.

End lodash.

(** ** Documents *)

Module User.
Record t := mk {
  _id : ObjectId;
  role : string;
  groups : option (list ObjectId);
  name : string
}.
End User.

Module Group.
Record t := mk {
  _id : ObjectId;
  administrator : option ObjectId;
  name : option string
}.
End Group.

Module Participant.
Record t := mk {
  participant : ObjectId;
  datetime : Timestamp
}.
End Participant.

Module Message.
(** A message is the request body as pushed onto [messages], stamped with
    [datetime] and [poster] by the handler. *)
Record t := mk {
  text : option string;
  datetime : option Timestamp;
  poster : option ObjectId
}.
Definition set_datetime (v : Timestamp) (b : t) : t :=
  mk (text b) (Some v) (poster b).
Definition set_poster (v : ObjectId) (b : t) : t :=
  mk (text b) (datetime b) (Some v).
End Message.

Module Event.
(** Modelled from the spec: the Event schema of [./event.model], with the
    fields the controller reads and writes.
    [G] is the representation of a group reference: an [ObjectId] as
    stored, a [Group.t] once [groupRestriction] is populated. *)
Record t (G : Type) := mk {
  _id : ObjectId;
  name : option string;
  datetime : option string;
  meetupTime : option string;
  meetupPlace : option string;
  place : option string;
  creator : ObjectId;
  created : Timestamp;
  canceled : bool;
  groupRestriction : option (list G);
  participants : list Participant.t;
  messages : list Message.t
}.
Arguments mk {G}.
Arguments _id {G}.
Arguments name {G}.
Arguments datetime {G}.
Arguments meetupTime {G}.
Arguments meetupPlace {G}.
Arguments place {G}.
Arguments creator {G}.
Arguments created {G}.
Arguments canceled {G}.
Arguments groupRestriction {G}.
Arguments participants {G}.
Arguments messages {G}.

(** The identifiers of the participants, in order. *)
Definition participantIds {G} (e : t G) : list ObjectId :=
  lodash.pluck (participants e) Participant.participant.

Definition set_participants {G} (ps : list Participant.t) (e : t G) : t G :=
  mk (_id e) (name e) (datetime e) (meetupTime e) (meetupPlace e) (place e)
     (creator e) (created e) (canceled e) (groupRestriction e) ps (messages e).

Definition set_messages {G} (ms : list Message.t) (e : t G) : t G :=
  mk (_id e) (name e) (datetime e) (meetupTime e) (meetupPlace e) (place e)
     (creator e) (created e) (canceled e) (groupRestriction e)
     (participants e) ms.

Definition set_canceled {G} (c : bool) (e : t G) : t G :=
  mk (_id e) (name e) (datetime e) (meetupTime e) (meetupPlace e) (place e)
     (creator e) (created e) c (groupRestriction e)
     (participants e) (messages e).

Definition set_groupRestriction {G H} (gs : option (list H)) (e : t G) : t H :=
  mk (_id e) (name e) (datetime e) (meetupTime e) (meetupPlace e) (place e)
     (creator e) (created e) (canceled e) gs
     (participants e) (messages e).
End Event.

(** Exceptions raised by the JavaScript runtime. *)
Inductive Exn :=
  | TypeError (message : string).

(** ** Authorization predicates *)

Module Authorization.

(** The body of [canView]: can view if admin, not restricted, or member of
    a restriction group. *)
Definition canView (user : option User.t) (event : Event.t Group.t) : bool :=
  let a := negb (match Event.groupRestriction event with
                 | Some l => negb (length l =? 0)
                 | None => false
                 end) in
  match user with
  | None => a
  | Some user =>
      let b := bool_decide (User.role user = "admin")
               || bool_decide (User.role user = "curator") in
      let c := defined (lodash.find (Event.groupRestriction event)
                 (λ group,
                    match Group.administrator group with
                    | Some adm => equals adm (User._id user)
                    | None => false
                    end
                    || defined (lodash.find (User.groups user)
                         (λ groupId, equals (Group._id group) groupId)))) in
      a || b || c
  end.

(** The body of [canEdit]: can edit if admin, creator, or leader of a
    restriction group. Reading [user.role] of an absent user raises. *)
Definition canEdit (user : option User.t) (event : Event.t Group.t)
  : Exn + bool :=
  match user with
  | None => inl (TypeError "Cannot read property 'role' of undefined")
  | Some user =>
      let a := bool_decide (User.role user = "admin")
               || bool_decide (User.role user = "curator") in
      let b := equals (Event.creator event) (User._id user) in
      let c := defined (lodash.find (Event.groupRestriction event)
                 (λ group,
                    match Group.administrator group with
                    | Some adm => equals adm (User._id user)
                    | None => false
                    end)) in
      inr (a || b || c)
  end.

(** An event is restricted when its [groupRestriction] is a non-empty
    list. *)
Definition restricted {G} (event : Event.t G) : Prop :=
  ∃ l, Event.groupRestriction event = Some l ∧ l ≠ [].

Definition unrestricted {G} (event : Event.t G) : Prop :=
  Event.groupRestriction event = None ∨ Event.groupRestriction event = Some [].

(** The restricting groups of an event. *)
Definition restricting {G} (event : Event.t G) : list G :=
  default [] (Event.groupRestriction event).

Definition privileged (user : User.t) : Prop :=
  User.role user = "admin" ∨ User.role user = "curator".

Definition administers (user : User.t) (event : Event.t Group.t) : Prop :=
  ∃ group, group ∈ restricting event
           ∧ Group.administrator group = Some (User._id user).

Definition memberOf (user : User.t) (event : Event.t Group.t) : Prop :=
  ∃ group groupId, group ∈ restricting event
                   ∧ groupId ∈ default [] (User.groups user)
                   ∧ Group._id group = groupId.

End Authorization.

(** ** List documents *)

Module Place.
(** A place document as a client receives it once populated. *)
Record t := mk {
  _id : option string;
  locationDetails : option string;
  ratings : option string;
  feed : option string
}.
End Place.

(** The [place] of a list entry: a bare identifier, or an object (a populated
    place, which carries the identifier in its [_id]). *)
Inductive PlaceRef :=
  | ById (id : ObjectId)
  | Populated (doc : Place.t).

Module Entry.
Record t := mk {
  place : option PlaceRef;
  note : option string
}.
Definition set_place (p : option PlaceRef) (e : t) : t := mk p (note e).
End Entry.

Module PlaceList.
(** Modelled from the spec: the List schema of [./list.model]. *)
Record t := mk {
  _id : ObjectId;
  name : option string;
  entries : list Entry.t
}.
End PlaceList.

(** ** Requests *)

Module EventBody.
(** The body of a create or update request, every field optional. *)
Record t := mk {
  _id : option string;
  name : option string;
  datetime : option string;
  meetupTime : option string;
  meetupPlace : option string;
  place : option string;
  creator : option string;
  created : option string;
  canceled : option bool;
  groupRestriction : option (list ObjectId);
  participants : option (list Participant.t);
  messages : option (list Message.t)
}.
Definition delete__id (b : t) : t :=
  mk None (name b) (datetime b) (meetupTime b) (meetupPlace b) (place b)
     (creator b) (created b) (canceled b) (groupRestriction b)
     (participants b) (messages b).
Definition delete_participants (b : t) : t :=
  mk (_id b) (name b) (datetime b) (meetupTime b) (meetupPlace b) (place b)
     (creator b) (created b) (canceled b) (groupRestriction b)
     None (messages b).
Definition delete_messages (b : t) : t :=
  mk (_id b) (name b) (datetime b) (meetupTime b) (meetupPlace b) (place b)
     (creator b) (created b) (canceled b) (groupRestriction b)
     (participants b) None.
Definition set_created (v : string) (b : t) : t :=
  mk (_id b) (name b) (datetime b) (meetupTime b) (meetupPlace b) (place b)
     (creator b) (Some v) (canceled b) (groupRestriction b)
     (participants b) (messages b).
Definition set_creator (v : string) (b : t) : t :=
  mk (_id b) (name b) (datetime b) (meetupTime b) (meetupPlace b) (place b)
     (Some v) (created b) (canceled b) (groupRestriction b)
     (participants b) (messages b).
Definition set_participants (v : list Participant.t) (b : t) : t :=
  mk (_id b) (name b) (datetime b) (meetupTime b) (meetupPlace b) (place b)
     (creator b) (created b) (canceled b) (groupRestriction b)
     (Some v) (messages b).
End EventBody.

Module ListBody.
(** The body of a list update request. *)
Record t := mk {
  _id : option string;
  name : option string;
  entries : option (list Entry.t)
}.
Definition delete__id (b : t) : t := mk None (name b) (entries b).
Definition set_entries (es : list Entry.t) (b : t) : t :=
  mk (_id b) (name b) (Some es).
End ListBody.

Module Request.
(** What a handler reads of [req]: the actor put there by the authentication
    middleware (absent on an anonymous request), [req.params.id] and the
    parsed body. *)
Record t (B : Type) := mk {
  user : option User.t;
  id : ObjectId;
  body : B
}.
Arguments mk {B}.
Arguments user {B}.
Arguments id {B}.
Arguments body {B}.
End Request.

(** ** Notifications and responses *)

(** An event document as a handler holds it: as stored, or with
    [groupRestriction] populated. *)
Inductive EventDoc :=
  | Plain (event : Event.t ObjectId)
  | WithGroups (event : Event.t Group.t).

(** The result of [moment(datetime).format('llll')], kept symbolic. *)
Inductive Formatted :=
  | llll (datetime : option string).

Module Notification.
Record data := mkData {
  name : string;
  event : EventDoc;
  when : option Formatted;
  text : option string;
  poster : option User.t
}.
Record t := mk {
  user : ObjectId;
  datetime : Timestamp;
  data_ : data
}.
End Notification.

(** An error reported by the document store to a callback. *)
Inductive StorageError :=
  | MongoError (message : string).

(** One option of a [populate] call. *)
Record PopulateOpt := { path : string; select : string }.

Inductive Payload :=
  | NoPayload
  | ErrorPayload (err : StorageError)
  | MessagePayload (message : string)
  | EventPayload (doc : EventDoc) (populated : list PopulateOpt)
  | EventsPayload (docs : list (Event.t Group.t))
  | ListPayload (doc : PlaceList.t) (populated : list PopulateOpt)
  | ListsPayload (docs : list PlaceList.t).

Record Response := { status : nat; payload : Payload }.

(** [res.send(status)], [res.send(status, err)], [res.json(status, body)];
    [res.json(body)] answers 200. *)
Definition send (status : nat) : Response := Build_Response status NoPayload.
Definition json (status : nat) (body : Payload) : Response :=
  Build_Response status body.
Definition handleError (err : StorageError) : Response :=
  Build_Response 500 (ErrorPayload err).

(** ** The world a request runs in *)

(** Whether the document store reports an error at a query, a create, a
    save, a populate or a remove while the request is handled. *)
Record Faults := {
  onFind : option StorageError;
  onCreate : option StorageError;
  onSave : option StorageError;
  onPopulate : option StorageError;
  onRemove : option StorageError
}.

Record World := mkWorld {
  events : gmap string (Event.t ObjectId);
  lists : gmap string PlaceList.t;
  groups : gmap string Group.t;
  (** records handed to [Notification.create], oldest first *)
  notifications : list Notification.t;
  (** bodies written by [console.log] *)
  console : list ListBody.t;
  (** the wall clock: what the n-th reading of it returns *)
  clock : nat → Timestamp;
  reads : nat;
  (** the identifier the store gives to the n-th document it creates *)
  generated : nat → ObjectId;
  made : nat;
  faults : Faults
}.

Definition set_events (f : gmap string (Event.t ObjectId) → gmap string (Event.t ObjectId))
    (w : World) : World :=
  mkWorld (f (events w)) (lists w) (groups w) (notifications w) (console w)
          (clock w) (reads w) (generated w) (made w) (faults w).
Definition set_lists (f : gmap string PlaceList.t → gmap string PlaceList.t)
    (w : World) : World :=
  mkWorld (events w) (f (lists w)) (groups w) (notifications w) (console w)
          (clock w) (reads w) (generated w) (made w) (faults w).
Definition set_notifications (f : list Notification.t → list Notification.t)
    (w : World) : World :=
  mkWorld (events w) (lists w) (groups w) (f (notifications w)) (console w)
          (clock w) (reads w) (generated w) (made w) (faults w).
Definition set_console (f : list ListBody.t → list ListBody.t)
    (w : World) : World :=
  mkWorld (events w) (lists w) (groups w) (notifications w) (f (console w))
          (clock w) (reads w) (generated w) (made w) (faults w).
Definition set_reads (f : nat → nat) (w : World) : World :=
  mkWorld (events w) (lists w) (groups w) (notifications w) (console w)
          (clock w) (f (reads w)) (generated w) (made w) (faults w).
Definition set_made (f : nat → nat) (w : World) : World :=
  mkWorld (events w) (lists w) (groups w) (notifications w) (console w)
          (clock w) (reads w) (generated w) (f (made w)) (faults w).

(** ** Handler computations *)

(** How a piece of handler code ends: with a value, or with an exception that
    nothing in the controller catches. *)
Inductive Outcome (A : Type) :=
  | Returned (a : A)
  | Threw (e : Exn).
Arguments Returned {A} a.
Arguments Threw {A} e.

Definition Js (A : Type) : Type := World → Outcome A * World.

#[export] Instance Js_ret : MRet Js := λ A a w, (Returned a, w).
#[export] Instance Js_bind : MBind Js := λ A B f m w,
  match m w with
  | (Returned a, w') => f a w'
  | (Threw e, w') => (Threw e, w')
  end.

Definition throw {A} (e : Exn) : Js A := λ w, (Threw e, w).
Definition gets {A} (f : World → A) : Js A := λ w, (Returned (f w), w).
Definition modify (f : World → World) : Js unit := λ w, (Returned (), f w).

(** [moment().toISOString()]: one reading of the wall clock. *)
Definition now : Js Timestamp :=
  t ← gets (λ w, clock w (reads w));
  _ ← modify (set_reads S);
  mret t.

(** [req.user._id]: raises when the request carries no actor. *)
Definition user_id {B} (req : Request.t B) : Js ObjectId :=
  match Request.user req with
  | Some user => mret (User._id user)
  | None => throw (TypeError "Cannot read property '_id' of undefined")
  end.

(** The status a handler answered with, if it answered. *)
Definition answered (o : Outcome Response) : option nat :=
  match o with
  | Returned r => Some (status r)
  | Threw _ => None
  end.

(** The result a store operation hands to its callback: [(err, value)]. *)
Definition Callback (A : Type) : Type := StorageError + A.

(** ** The document store as the controllers use it *)

Module EventModel.

(** Mongoose's [populate('groupRestriction', select)] resolves each stored
    group identifier to the group document, leaving out the identifiers no
    group has; [name] is resolved only when selected. *)
Definition resolve (withName : bool) (gs : gmap string Group.t)
    (id : ObjectId) : option Group.t :=
  match gs !! id with
  | Some g => Some (Group.mk (Group._id g) (Group.administrator g)
                      (if withName then Group.name g else None))
  | None => None
  end.

Definition populateGroups (withName : bool) (gs : gmap string Group.t)
    (e : Event.t ObjectId) : Event.t Group.t :=
  Event.set_groupRestriction
    (match Event.groupRestriction e with
     | Some ids => Some (omap (resolve withName gs) ids)
     | None => None
     end) e.

(** The document with ['administrator'] selected, and with
    ['administrator name'] selected. *)
Definition withAdministrators (e : Event.t ObjectId) : Js (Event.t Group.t) :=
  gets (λ w, populateGroups false (groups w) e).
Definition withAdministratorsAndNames (e : Event.t ObjectId)
  : Js (Event.t Group.t) :=
  gets (λ w, populateGroups true (groups w) e).

(** [Event.findById(id)], with or without [populate] calls chained before
    [exec]: the callback gets an error, or the stored document if any. *)
Definition findById (id : ObjectId) : Js (Callback (option (Event.t ObjectId))) :=
  gets (λ w, match onFind (faults w) with
             | Some err => inl err
             | None => inr (events w !! id)
             end).

(** [Event.find(conditions)]. *)
Definition find (conditions : Event.t ObjectId → bool)
  : Js (Callback (list (Event.t ObjectId))) :=
  gets (λ w, match onFind (faults w) with
             | Some err => inl err
             | None => inr (List.filter conditions (snd <$> map_to_list (events w)))
             end).

(** Modelled from the spec: the document [Event.create] builds from a body.
    Arrays default to the empty array and [canceled] to false; there is no
    document without [creator] and [created]. *)
Definition ofBody (id : ObjectId) (b : EventBody.t) : option (Event.t ObjectId) :=
  creator ← EventBody.creator b;
  created ← EventBody.created b;
  Some (Event.mk id (EventBody.name b) (EventBody.datetime b)
          (EventBody.meetupTime b) (EventBody.meetupPlace b) (EventBody.place b)
          creator created (default false (EventBody.canceled b))
          (Some (default [] (EventBody.groupRestriction b)))
          (default [] (EventBody.participants b))
          (default [] (EventBody.messages b))).

(** The identifier of a document built from a body: the body's own, else
    the next one the store generates. *)
Definition newId (b : EventBody.t) (w : World) : ObjectId :=
  default (generated w (made w)) (EventBody._id b).

(** [Event.create(body, callback)]: the store keeps identifiers unique. *)
Definition create (b : EventBody.t) : Js (Callback (Event.t ObjectId)) := λ w,
  match onCreate (faults w) with
  | Some err => (Returned (inl err), w)
  | None =>
      let id := newId b w in
      match events w !! id, ofBody id b with
      | Some _, _ => (Returned (inl (MongoError "duplicate key")), w)
      | None, None => (Returned (inl (MongoError "validation failed")), w)
      | None, Some event =>
          (Returned (inr event), set_made S (set_events (insert id event) w))
      end
  end.

(** [event.save(callback)]. *)
Definition save (event : Event.t ObjectId) : Js (Callback (Event.t ObjectId)) :=
  λ w,
  match onSave (faults w) with
  | Some err => (Returned (inl err), w)
  | None => (Returned (inr event),
             set_events (insert (Event._id event) event) w)
  end.

(** [event.populate(opts, callback)]: the document is handed back with the
    paths of [opts] resolved for rendering. *)
Definition populate (opts : list PopulateOpt) (doc : EventDoc)
  : Js (Callback Payload) :=
  gets (λ w, match onPopulate (faults w) with
             | Some err => inl err
             | None => inr (EventPayload doc opts)
             end).

End EventModel.

Module NotificationModel.
(** [Notification.create(records)], without a callback: the records are
    handed over and the outcome is not looked at. *)
Definition create (records : list Notification.t) : Js unit :=
  modify (set_notifications (λ sent, sent ++ records)).
End NotificationModel.

Module ListModel.
(** [List.find(callback)]. *)
Definition find : Js (Callback (list PlaceList.t)) :=
  gets (λ w, match onFind (faults w) with
             | Some err => inl err
             | None => inr (snd <$> map_to_list (lists w))
             end).
Definition findById (id : ObjectId) : Js (Callback (option PlaceList.t)) :=
  gets (λ w, match onFind (faults w) with
             | Some err => inl err
             | None => inr (lists w !! id)
             end).
(** [List.create(body, callback)]: the body as it is, under the body's own
    identifier or the next one the store generates. *)
Definition create (b : ListBody.t) : Js (Callback PlaceList.t) := λ w,
  match onCreate (faults w) with
  | Some err => (Returned (inl err), w)
  | None =>
      let id := default (generated w (made w)) (ListBody._id b) in
      let doc := PlaceList.mk id (ListBody.name b)
                   (default [] (ListBody.entries b)) in
      match lists w !! id with
      | Some _ => (Returned (inl (MongoError "duplicate key")), w)
      | None => (Returned (inr doc), set_made S (set_lists (insert id doc) w))
      end
  end.
Definition save (doc : PlaceList.t) : Js (Callback PlaceList.t) := λ w,
  match onSave (faults w) with
  | Some err => (Returned (inl err), w)
  | None => (Returned (inr doc), set_lists (insert (PlaceList._id doc) doc) w)
  end.
(** [list.remove(callback)]. *)
Definition remove (doc : PlaceList.t) : Js (Callback unit) := λ w,
  match onRemove (faults w) with
  | Some err => (Returned (inl err), w)
  | None => (Returned (inr ()), set_lists (delete (PlaceList._id doc)) w)
  end.
Definition populate (opts : list PopulateOpt) (doc : PlaceList.t)
  : Js (Callback Payload) :=
  gets (λ w, match onPopulate (faults w) with
             | Some err => inl err
             | None => inr (ListPayload doc opts)
             end).
End ListModel.

(** ** The event controller *)

Module EventController.
Import Authorization.

Definition participantNames : PopulateOpt :=
  {| path := "participants.participant"; select := "name" |}.
Definition posterNames : PopulateOpt :=
  {| path := "messages.poster"; select := "name" |}.
Definition groupAdministrators : PopulateOpt :=
  {| path := "groupRestriction"; select := "administrator" |}.
Definition groupAdministratorsAndNames : PopulateOpt :=
  {| path := "groupRestriction"; select := "administrator name" |}.

(** [_.find(participants, p => req.user._id.equals(p.participant))]: the
    callback runs on the first element if there is one, and reading
    [req.user._id] raises there when the request has no actor. *)
Definition findParticipant {B} (req : Request.t B)
    (participants : list Participant.t) : Js (option Participant.t) :=
  match participants with
  | [] => mret None
  | _ :: _ =>
      uid ← user_id req;
      mret (lodash.find (Some participants)
              (λ p, equals uid (Participant.participant p)))
  end.

(** [_.findIndex(participants, p => req.user._id.equals(p.participant))]. *)
Definition findParticipantIndex {B} (req : Request.t B)
    (participants : list Participant.t) : Js (option nat) :=
  match participants with
  | [] => mret None
  | _ :: _ =>
      uid ← user_id req;
      mret (lodash.findIndex participants
              (λ p, equals uid (Participant.participant p)))
  end.

(** Get list of visible events. *)
Definition all (req : Request.t unit) : Js Response :=
  found ← EventModel.find (λ _, true);
  match found with
  | inl err => mret (handleError err)
  | inr events =>
      events ← mapM EventModel.withAdministrators events;
      let events :=
        lodash.filter events
          (lodash.call (lodash.curry1 canView (Request.user req))) in
      mret (json 200 (EventsPayload events))
  end.

(** Get list of events by place id. *)
Definition index (req : Request.t unit) : Js Response :=
  found ← EventModel.find
            (λ e, bool_decide (Event.place e = Some (Request.id req)));
  match found with
  | inl err => mret (handleError err)
  | inr events =>
      events ← mapM EventModel.withAdministrators events;
      let events :=
        lodash.filter events
          (lodash.call (lodash.curry1 canView (Request.user req))) in
      mret (json 200 (EventsPayload events))
  end.

(** Get a single event. *)
Definition show (req : Request.t unit) : Js Response :=
  found ← EventModel.findById (Request.id req);
  match found with
  | inl err => mret (handleError err)
  | inr None => mret (send 404)
  | inr (Some event) =>
      if negb (lodash.truthy (lodash.curry1 canView (Request.user req)))
      then mret (send 403)
      else
        doc ← EventModel.withAdministratorsAndNames event;
        mret (json 200 (EventPayload (WithGroups doc)
                          [participantNames; posterNames]))
  end.

(** Creates a new event in the DB. *)
Definition create (req : Request.t EventBody.t) : Js Response :=
  (* Creator can't define participants or messages *)
  let body := EventBody.delete_participants (Request.body req) in
  let body := EventBody.delete_messages body in
  if negb (truthy (EventBody.place body))
  then mret (json 403 (MessagePayload "An event must have an associated place."))
  else
    created ← now;
    let body := EventBody.set_created created body in
    creator ← user_id req;
    let body := EventBody.set_creator creator body in
    participant ← user_id req;
    datetime ← now;
    let body :=
      EventBody.set_participants [Participant.mk participant datetime] body in
    made ← EventModel.create body;
    match made with
    | inl err => mret (handleError err)
    | inr event => mret (json 201 (EventPayload (Plain event) []))
    end.

(** Updates an existing event in the DB. *)
Definition update (req : Request.t EventBody.t) : Js Response :=
  let body := EventBody.delete__id (Request.body req) in
  let body := EventBody.delete_participants body in (* Can't change this *)
  let body := EventBody.delete_messages body in     (* Or this *)
  found ← EventModel.findById (Request.id req);
  match found with
  | inl err => mret (handleError err)
  | inr None => mret (send 404)
  | inr (Some event) =>
      if negb (lodash.truthy (lodash.curry1 canEdit (Request.user req)))
      then mret (json 403
                   (MessagePayload "You are not authorized to modify this event"))
      else
        let event :=
          Event.mk (Event._id event)
            (or_else (EventBody.name body) (Event.name event))
            (or_else (EventBody.datetime body) (Event.datetime event))
            (or_else (EventBody.meetupTime body) (Event.meetupTime event))
            (or_else (EventBody.meetupPlace body) (Event.meetupPlace event))
            (Event.place event) (Event.creator event) (Event.created event)
            (Event.canceled event)
            (if defined (EventBody.groupRestriction body)
             then EventBody.groupRestriction body
             else Event.groupRestriction event)
            (Event.participants event) (Event.messages event) in
        saved ← EventModel.save event;
        match saved with
        | inl err => mret (handleError err)
        | inr event =>
            doc ← EventModel.withAdministratorsAndNames event;
            populated ← EventModel.populate [participantNames; posterNames]
                          (WithGroups doc);
            match populated with
            | inl err => mret (handleError err)
            | inr body => mret (json 200 body)
            end
        end
  end.

(** [moment(datetime)]: the instant the datetime denotes; without a
    datetime it is the current time, one more reading of the clock. *)
Definition moment (datetime : option string) : Js (option string) :=
  match datetime with
  | Some d => mret (Some d)
  | None => t ← now; mret (Some t)
  end.

(** The notification built from a participant's id when an event is
    canceled. *)
Definition cancelNotification (event : EventDoc) (datetime : option string)
    (id : ObjectId) : Js Notification.t :=
  t ← now;
  when ← moment datetime;
  mret (Notification.mk id t
          (Notification.mkData "event.cancel" event (Some (llll when))
             None None)).

(** Cancels the event. *)
Definition cancel (req : Request.t unit) : Js Response :=
  found ← EventModel.findById (Request.id req);
  match found with
  | inl err => mret (handleError err)
  | inr None => mret (send 404)
  | inr (Some event) =>
      if negb (lodash.truthy (lodash.curry1 canEdit (Request.user req)))
      then mret (json 403
                   (MessagePayload "You are not authorized to modify this event"))
      else
        let event := Event.set_canceled true event in
        saved ← EventModel.save event;
        match saved with
        | inl err => mret (handleError err)
        | inr event =>
            doc ← EventModel.withAdministrators event;
            (* Notify the participants that the event was canceled *)
            notifications ←
              mapM (cancelNotification (WithGroups doc) (Event.datetime event))
                   (lodash.pluck (Event.participants event)
                      Participant.participant);
            _ ← NotificationModel.create notifications;
            mret (json 200 (EventPayload (WithGroups doc) []))
        end
  end.

(** Joins the user as a participant to an event. *)
Definition join (req : Request.t unit) : Js Response :=
  found ← EventModel.findById (Request.id req);
  match found with
  | inl err => mret (handleError err)
  | inr None => mret (send 404)
  | inr (Some event) =>
      if negb (lodash.truthy (lodash.curry1 canView (Request.user req)))
      then mret (send 403)
      else
        joined ← findParticipant req (Event.participants event);
        if defined joined
        then mret (json 403 (MessagePayload "You have already joined this event."))
        else
          datetime ← now;
          participant ← user_id req;
          let event :=
            Event.set_participants
              (Event.participants event ++ [Participant.mk participant datetime])
              event in
          saved ← EventModel.save event;
          match saved with
          | inl err => mret (handleError err)
          | inr event =>
              doc ← EventModel.withAdministrators event;
              populated ← EventModel.populate [participantNames; posterNames]
                            (WithGroups doc);
              match populated with
              | inl err => mret (handleError err)
              | inr body => mret (json 200 body)
              end
          end
  end.

(** User backs out of event. *)
Definition unjoin (req : Request.t unit) : Js Response :=
  found ← EventModel.findById (Request.id req);
  match found with
  | inl err => mret (handleError err)
  | inr None => mret (send 404)
  | inr (Some event) =>
      pIdx ← findParticipantIndex req (Event.participants event);
      match pIdx with
      | None =>
          mret (json 403 (MessagePayload "You have not joined this event."))
      | Some pIdx =>
          (* event.participants.splice(pIdx, 1) *)
          let event :=
            Event.set_participants (delete pIdx (Event.participants event))
              event in
          saved ← EventModel.save event;
          match saved with
          | inl err => mret (handleError err)
          | inr event =>
              populated ← EventModel.populate [participantNames; posterNames]
                            (Plain event);
              match populated with
              | inl err => mret (handleError err)
              | inr body => mret (json 200 body)
              end
          end
      end
  end.

(** The notification built from a participant's id when a message is
    posted. *)
Definition messageNotification {B} (req : Request.t B) (text : option string)
    (event : EventDoc) (id : ObjectId) : Js Notification.t :=
  t ← now;
  mret (Notification.mk id t
          (Notification.mkData "event.message" event None text
             (Request.user req))).

Definition message (req : Request.t Message.t) : Js Response :=
  found ← EventModel.findById (Request.id req);
  match found with
  | inl err => mret (handleError err)
  | inr None => mret (send 404)
  | inr (Some event) =>
      (* Must be a participant to message *)
      attending ← findParticipant req (Event.participants event);
      if negb (defined attending)
      then mret (json 403
             (MessagePayload "You must be attending this event to send messages."))
      else
        datetime ← now;
        let body := Message.set_datetime datetime (Request.body req) in
        poster ← user_id req;
        let body := Message.set_poster poster body in
        let event := Event.set_messages (Event.messages event ++ [body]) event in
        saved ← EventModel.save event;
        match saved with
        | inl err => mret (handleError err)
        | inr event =>
            (* Notify the participants of the message *)
            uid ← user_id req;
            notifications ←
              mapM (messageNotification req (Message.text body) (Plain event))
                   (lodash.filter
                      (lodash.pluck (Event.participants event)
                         Participant.participant)
                      (* Don't message the user creating the message *)
                      (λ id, negb (equals uid id)));
            _ ← NotificationModel.create notifications;
            populated ← EventModel.populate [participantNames; posterNames]
                          (Plain event);
            match populated with
            | inl err => mret (handleError err)
            | inr body => mret (json 200 body)
            end
        end
  end.

End EventController.

(** ** The list controller *)

Module ListController.

Definition placeDetails : PopulateOpt :=
  {| path := "entries.place"; select := "locationDetails ratings feed" |}.

(** Get list of lists. *)
Definition index (req : Request.t unit) : Js Response :=
  found ← ListModel.find;
  match found with
  | inl err => mret (handleError err)
  | inr lists => mret (json 200 (ListsPayload lists))
  end.

(** Get a single list. *)
Definition show (req : Request.t unit) : Js Response :=
  found ← ListModel.findById (Request.id req);
  match found with
  | inl err => mret (handleError err)
  | inr None => mret (send 404)
  | inr (Some list) => mret (json 200 (ListPayload list [placeDetails]))
  end.

(** Creates a new list in the DB. *)
Definition create (req : Request.t ListBody.t) : Js Response :=
  made ← ListModel.create (Request.body req);
  match made with
  | inl err => mret (handleError err)
  | inr list => mret (json 201 (ListPayload list []))
  end.

(** The callback of [req.body.entries.forEach]: un-populate one entry, that
    is, put the place's [_id] in the place of a place object carrying one. *)
Definition unpopulate (entry : Entry.t) : Entry.t :=
  match Entry.place entry with
  | Some (Populated doc) =>
      if truthy (Place._id doc)
      then Entry.set_place (ById <$> Place._id doc) entry
      else entry
  | Some (ById id) => entry  (* a string has no [_id] *)
  | None => entry
  end.

(** Updates an existing list in the DB. *)
Definition update (req : Request.t ListBody.t) : Js Response :=
  let body := if truthy (ListBody._id (Request.body req))
              then ListBody.delete__id (Request.body req)
              else Request.body req in
  _ ← modify (set_console (λ out, out ++ [body]));
  (* Un-populate *)
  match ListBody.entries body with
  | None => throw (TypeError "Cannot read property 'forEach' of undefined")
  | Some entries =>
      let body := ListBody.set_entries (unpopulate <$> entries) body in
      found ← ListModel.findById (Request.id req);
      match found with
      | inl err => mret (handleError err)
      | inr None => mret (send 404)
      | inr (Some list) =>
          let list :=
            PlaceList.mk (PlaceList._id list)
              (or_else (ListBody.name body) (PlaceList.name list))
              (default [] (ListBody.entries body)) in
          saved ← ListModel.save list;
          match saved with
          | inl err => mret (handleError err)
          | inr list =>
              populated ← ListModel.populate [placeDetails] list;
              match populated with
              | inl err => mret (handleError err)
              | inr body => mret (json 200 body)
              end
          end
      end
  end.

(** Deletes a list from the DB. *)
Definition destroy (req : Request.t unit) : Js Response :=
  found ← ListModel.findById (Request.id req);
  match found with
  | inl err => mret (handleError err)
  | inr None => mret (send 404)
  | inr (Some list) =>
      removed ← ListModel.remove list;
      match removed with
      | inl err => mret (handleError err)
      | inr _ => mret (send 204)
      end
  end.

End ListController.

(** ** The API surface *)

(** One request to one of the handlers. *)
Inductive Call :=
  | GetEvents (req : Request.t unit)
  | GetPlaceEvents (req : Request.t unit)
  | GetEvent (req : Request.t unit)
  | PostEvent (req : Request.t EventBody.t)
  | PutEvent (req : Request.t EventBody.t)
  | PostCancel (req : Request.t unit)
  | PostJoin (req : Request.t unit)
  | PostUnjoin (req : Request.t unit)
  | PostMessage (req : Request.t Message.t)
  | GetLists (req : Request.t unit)
  | GetList (req : Request.t unit)
  | PostList (req : Request.t ListBody.t)
  | PutList (req : Request.t ListBody.t)
  | DeleteList (req : Request.t unit).

Definition handle (c : Call) : Js Response :=
  match c with
  | GetEvents req => EventController.all req
  | GetPlaceEvents req => EventController.index req
  | GetEvent req => EventController.show req
  | PostEvent req => EventController.create req
  | PutEvent req => EventController.update req
  | PostCancel req => EventController.cancel req
  | PostJoin req => EventController.join req
  | PostUnjoin req => EventController.unjoin req
  | PostMessage req => EventController.message req
  | GetLists req => ListController.index req
  | GetList req => ListController.show req
  | PostList req => ListController.create req
  | PutList req => ListController.update req
  | DeleteList req => ListController.destroy req
  end.

(** A user appears at most once in the participants of an event. *)
Definition attendsOnce {G} (e : Event.t G) : Prop :=
  NoDup (Event.participantIds e).


(** The worlds the handlers can lead to from [init]: between two requests
    everything but the stored events may change (time passes, the store may
    start or stop failing, other controllers write other collections). *)
Inductive reachable (init : World) : World → Prop :=
  | reach_init : reachable init init
  | reach_call w c : reachable init w → reachable init (handle c w).2
  | reach_env w w' :
      reachable init w → events w' = events w → reachable init w'.

(** The entries of a list reference places by identifier only. *)
Definition byIdentifier (e : Entry.t) : Prop :=
  match Entry.place e with
  | Some (Populated _) => False
  | Some (ById _) | None => True
  end.

(** A place as a client submits it: nothing, a bare identifier, or a
    populated place object, which carries its identifier in [_id]. *)
Definition submittable (e : Entry.t) : Prop :=
  match Entry.place e with
  | Some (Populated doc) => ∃ id, Place._id doc = Some id ∧ id ≠ ""
  | Some (ById _) | None => True
  end.

(** ** Further notions about calls and worlds *)

(** The event a call is about, for the handlers that look one up by
    [req.params.id]. *)
Definition eventTarget (c : Call) : option ObjectId :=
  match c with
  | GetEvent req | PostCancel req | PostJoin req | PostUnjoin req =>
      Some (Request.id req)
  | PutEvent req => Some (Request.id req)
  | PostMessage req => Some (Request.id req)
  | _ => None
  end.

(** The calls whose handler starts with a query of the store. *)
Definition queriesFirst (c : Call) : bool :=
  match c with
  | PostEvent _ | PostList _ | PutList _ => false
  | _ => true
  end.

(** The calls that only read. *)
Definition readOnly (c : Call) : bool :=
  match c with
  | GetEvents _ | GetPlaceEvents _ | GetEvent _ | GetLists _ | GetList _ => true
  | _ => false
  end.

(** The actor of a call, if the request carries one. *)
Definition actor (c : Call) : option User.t :=
  match c with
  | GetEvents req | GetPlaceEvents req | GetEvent req | PostCancel req
  | PostJoin req | PostUnjoin req | GetLists req | GetList req
  | DeleteList req => Request.user req
  | PostEvent req | PutEvent req => Request.user req
  | PostMessage req => Request.user req
  | PostList req | PutList req => Request.user req
  end.

(** The calls whose handler reads [req.user._id]. *)
Definition needsActor (c : Call) : bool :=
  match c with
  | PostEvent _ | PostJoin _ | PostUnjoin _ | PostMessage _ => true
  | _ => false
  end.

(** The handler answered, with a status below 300. *)
Definition succeeded (o : Outcome Response) : bool :=
  match answered o with
  | Some status => status <? 300
  | None => false
  end.

(** Every stored event sits under its own identifier. *)
Definition keyed (w : World) : Prop :=
  map_Forall (λ id e, Event._id e = id) (events w).

(** What stays of an event whatever the handlers do to it: its identifier,
    creator, creation time and place, that it is canceled once it has
    been, and the messages it holds, to which more may be appended. *)
Definition evolves (e e' : Event.t ObjectId) : Prop :=
  Event._id e' = Event._id e
  ∧ Event.creator e' = Event.creator e
  ∧ Event.created e' = Event.created e
  ∧ Event.place e' = Event.place e
  ∧ (Event.canceled e = true → Event.canceled e' = true)
  ∧ Event.messages e `prefix_of` Event.messages e'.

(** The store answers every operation. *)
Definition reliable (w : World) : Prop :=
  onFind (faults w) = None ∧ onCreate (faults w) = None
  ∧ onSave (faults w) = None ∧ onPopulate (faults w) = None
  ∧ onRemove (faults w) = None.

(** The store refuses every write. *)
Definition readOnlyStore (w : World) : Prop :=
  is_Some (onCreate (faults w)) ∧ is_Some (onSave (faults w))
  ∧ is_Some (onRemove (faults w)).

(** The three things a call can do to the stored events: nothing, write
    back the event it looked up, or add a new event under a free
    identifier. *)
Definition eventsShape (c : Call) (w : World) : Prop :=
  events (handle c w).2 = events w
  ∨ (∃ id e e',
       eventTarget c = Some id ∧ events w !! id = Some e
       ∧ events (handle c w).2 = <[Event._id e := e']> (events w)
       ∧ evolves e e')
  ∨ (∃ id e,
       events w !! id = None ∧ Event._id e = id
       ∧ events (handle c w).2 = <[id := e]> (events w)).

(** [result = submitted || stored] on possibly absent strings: the submitted
    value when it is truthy, else the stored one. *)
Definition coalesced (submitted stored result : option string) : Prop :=
  if truthy submitted then result = submitted else result = stored.

(** ** Sample data

    A small world used to run the handlers on concrete requests. *)

Module Sample.

Definition alice : User.t := User.mk "a11ce" "user" (Some []) "Alice".
Definition bob : User.t := User.mk "b0b" "user" (Some ["c1ub"]) "Bob".
Definition carol : User.t := User.mk "ca701" "user" None "Carol".
Definition root : User.t := User.mk "f00" "admin" None "Root".

(** A group led by Alice. *)
Definition club : Group.t := Group.mk "c1ub" (Some "a11ce") (Some "Club").

Definition at_ (who : User.t) (t : Timestamp) : Participant.t :=
  Participant.mk (User._id who) t.

(** An open event created by Alice, attended by Alice and Bob. *)
Definition picnic : Event.t ObjectId :=
  Event.mk "e1" (Some "Picnic") (Some "2015-05-01T12:00:00.000Z") None None
    (Some "p1") "a11ce" "2015-04-01T08:00:00.000Z" false (Some [])
    [at_ alice "2015-04-01T08:00:00.000Z"; at_ bob "2015-04-02T09:30:00.000Z"]
    [].

(** An event restricted to the club, created and attended by Alice. *)
Definition meeting : Event.t ObjectId :=
  Event.mk "e2" (Some "Meeting") (Some "2015-06-01T18:00:00.000Z") None None
    (Some "p1") "a11ce" "2015-04-03T08:00:00.000Z" false (Some ["c1ub"])
    [at_ alice "2015-04-03T08:00:00.000Z"] [].

(** The meeting with its restriction populated. *)
Definition meetingDoc : Event.t Group.t :=
  Event.set_groupRestriction
    (Some [Group.mk "c1ub" (Some "a11ce") None]) meeting.

Definition picnicDoc : Event.t Group.t :=
  Event.set_groupRestriction (Some []) picnic.

Definition healthy : Faults := Build_Faults None None None None None.

(** The clock ticks "t0", "t1", ...; the store numbers new documents "n0",
    "n1", ... *)
Definition ticks (n : nat) : Timestamp := "t" +:+ pretty n.
Definition fresh (n : nat) : ObjectId := "n" +:+ pretty n.

Definition trip : PlaceList.t := PlaceList.mk "l1" (Some "Trip") [].

Definition world : World :=
  mkWorld {[ "e1" := picnic; "e2" := meeting ]} {[ "l1" := trip ]}
          {[ "c1ub" := club ]} [] [] ticks 0 fresh 0 healthy.

Definition request {B} (user : option User.t) (id : ObjectId) (body : B)
  : Request.t B := Request.mk user id body.

(** A create body that tries to seed participants and messages. *)
Definition forged : EventBody.t :=
  EventBody.mk None (Some "Party") (Some "2015-07-01T20:00:00.000Z") None None
    (Some "p1") (Some "b0b") None None None
    (Some [at_ bob "1999"; at_ carol "1999"])
    (Some [Message.mk (Some "hello") (Some "1999") (Some "b0b")]).

Definition renamed : EventBody.t :=
  EventBody.mk None (Some "Hijacked") None None None None None None None None
    None None.

Definition hello : Message.t := Message.mk (Some "hello") (Some "1999") (Some "a11ce").

Definition harbour : Place.t :=
  Place.mk (Some "p1") (Some "Harbour") (Some "4.5") None.

Definition submitted : list Entry.t :=
  [Entry.mk (Some (Populated harbour)) (Some "first stop");
   Entry.mk (Some (ById "p2")) None].

(** The event the store holds once Bob's forged create request is handled. *)
Definition party : Event.t ObjectId :=
  Event.mk "n0" (Some "Party") (Some "2015-07-01T20:00:00.000Z") None None
    (Some "p1") "b0b" "t0" false (Some []) [at_ bob "t1"] [].

(** An update body for the trip, and one without entries. *)
Definition itinerary : ListBody.t :=
  ListBody.mk (Some "l1") (Some "Road trip") (Some submitted).
Definition nameOnly : ListBody.t :=
  ListBody.mk None (Some "Road trip") None.

End Sample.

(** ** Further sample data *)

Module Scenario.

(** The sample world with another condition of the store. *)
Definition withFaults (f : Faults) (w : World) : World :=
  mkWorld (events w) (lists w) (groups w) (notifications w) (console w)
          (clock w) (reads w) (generated w) (made w) f.

Definition down : StorageError := MongoError "connection lost".

(** Queries fail. *)
Definition failing : World :=
  withFaults (Build_Faults (Some down) None None None None) Sample.world.

(** Writes are refused. *)
Definition locked : World :=
  withFaults (Build_Faults None (Some down) (Some down) None (Some down))
    Sample.world.

(** Documents are saved but cannot be populated afterwards. *)
Definition halfway : World :=
  withFaults (Build_Faults None None None (Some down) None) Sample.world.

(** A retreat restricted to the club, created by Carol, who is neither in
    the club nor leading it. *)
Definition retreatDoc : Event.t Group.t :=
  Event.mk "e3" (Some "Retreat") None None None (Some "p2") "ca701"
    "2015-04-05T08:00:00.000Z" false
    (Some [Group.mk "c1ub" (Some "a11ce") None]) [] [].

(** An update body that renames the event, submits an empty meetup place,
    lifts the restriction, and tries to set participants, place and
    cancellation. *)
Definition opened : EventBody.t :=
  EventBody.mk (Some "e9") (Some "Open meeting") None None (Some "")
    (Some "p9") (Some "b0b") None (Some true) (Some [])
    (Some [Sample.at_ Sample.bob "1999"]) None.


End Scenario.

(** * Properties *)

(** ** Helper lemmas *)

Lemma defined_find {A} (f : A → bool) (l : list A) :
  defined (List.find f l) = true ↔ ∃ x, x ∈ l ∧ f x = true.
Proof.
  induction l as [|y l IH]; simpl.
  - split; [discriminate|]. intros (x & Hx & _). by apply elem_of_nil in Hx.
  - destruct (f y) eqn:Hy; simpl.
    + split; [|done]. intros _. exists y. split; [left|done].
    + rewrite IH. split.
      * intros (x & Hx & Hfx). exists x. split; [by right|done].
      * intros (x & Hx & Hfx). apply elem_of_cons in Hx as [->|Hx].
        -- congruence.
        -- by exists x.
Qed.

Lemma defined_lodash_find {A} (f : A → bool) (c : option (list A)) :
  defined (lodash.find c f) = true ↔ ∃ x, x ∈ default [] c ∧ f x = true.
Proof.
  destruct c as [l|]; simpl.
  - apply defined_find.
  - split; [discriminate|]. intros (x & Hx & _). by apply elem_of_nil in Hx.
Qed.

Lemma equals_true (a b : ObjectId) : equals a b = true ↔ a = b.
Proof. unfold equals. by rewrite bool_decide_eq_true. Qed.

Lemma equals_false (a b : ObjectId) : equals a b = false ↔ a ≠ b.
Proof. unfold equals. by rewrite bool_decide_eq_false. Qed.

Section authorization.
Import Authorization.

Lemma administers_callback (u : User.t) (group : Group.t) :
  match Group.administrator group with
  | Some adm => equals adm (User._id u)
  | None => false
  end = true ↔ Group.administrator group = Some (User._id u).
Proof.
  destruct (Group.administrator group) as [adm|]; [|done].
  rewrite equals_true. split; congruence.
Qed.

Lemma privileged_test (u : User.t) :
  bool_decide (User.role u = "admin") || bool_decide (User.role u = "curator")
  = true ↔ privileged u.
Proof.
  unfold privileged.
  rewrite orb_true_iff, !bool_decide_eq_true. done.
Qed.

Lemma administers_test (u : User.t) (event : Event.t Group.t) :
  defined (lodash.find (Event.groupRestriction event)
    (λ group, match Group.administrator group with
              | Some adm => equals adm (User._id u)
              | None => false
              end)) = true ↔ administers u event.
Proof.
  rewrite defined_lodash_find. unfold administers, restricting.
  split; intros (g & Hg & H); exists g; split; try done;
    by apply administers_callback.
Qed.

(** C2. [canView] is true on every unrestricted event for every user, the
    absent one included; on a restricted event it is false for the absent
    user, and for a present user it is true exactly when the user's role is
    admin or curator, or the user administers a restricting group, or the
    user's groups contain the id of a restricting group. *)
Theorem canView_spec (user : option User.t) (event : Event.t Group.t) :
  (unrestricted event → canView user event = true)
  ∧ (restricted event → user = None → canView user event = false)
  ∧ (restricted event → ∀ u, user = Some u →
       (canView user event = true
        ↔ privileged u ∨ administers u event ∨ memberOf u event)).
Proof.
  split; [|split].
  - intros [H|H]; unfold canView; rewrite H; by destruct user.
  - intros (l & H & Hl) ->. unfold canView. rewrite H. by destruct l.
  - intros (l & H & Hl) u ->. unfold canView.
    replace (negb _) with false by (rewrite H; by destruct l).
    rewrite orb_false_l, orb_true_iff, privileged_test.
    rewrite defined_lodash_find.
    apply or_iff_compat_l. unfold administers, memberOf, restricting.
    split.
    + intros (g & Hg & Hc). apply orb_true_iff in Hc as [Hc|Hc].
      * left. exists g. split; [done|]. by apply administers_callback.
      * right. apply defined_lodash_find in Hc as (gid & Hgid & Heq).
        apply equals_true in Heq. by exists g, gid.
    + intros [(g & Hg & Ha)|(g & gid & Hg & Hgid & Heq)]; exists g;
        (split; [done|]); apply orb_true_iff.
      * left. by apply administers_callback.
      * right. apply defined_lodash_find. exists gid.
        split; [done|]. by apply equals_true.
Qed.

End authorization.

Section canEdit.
Import Authorization.

(** C3, as the code has it. [canEdit] has no result for an absent user:
    reading the role of the absent user raises a [TypeError]. For a present
    user it returns true exactly when the user's role is admin or curator,
    or the user is the event's creator, or the user administers a group of
    the event's [groupRestriction]. *)
Theorem canEdit_spec (event : Event.t Group.t) :
  canEdit None event
  = inl (TypeError "Cannot read property 'role' of undefined")
  ∧ ∀ u, ∃ b, canEdit (Some u) event = inr b
              ∧ (b = true ↔ privileged u
                            ∨ Event.creator event = User._id u
                            ∨ administers u event).
Proof.
  split; [reflexivity|]. intros u. eexists. split; [reflexivity|].
  rewrite orb_true_iff, (orb_true_iff _ (equals _ _)).
  rewrite privileged_test, equals_true, administers_test.
  tauto.
Qed.

(** C3 as stated fails: with an absent user [canEdit] does not return
    false, it raises. *)
Lemma canEdit_absent_user_raises :
  canEdit None Sample.meetingDoc ≠ inr false
  ∧ canEdit None Sample.meetingDoc
    = inl (TypeError "Cannot read property 'role' of undefined").
Proof. split; [discriminate|reflexivity]. Qed.

(** The three cases of C2 on the sample events: the open picnic is visible
    to the anonymous user, the restricted meeting is not, and Bob sees the
    meeting as a member of the club. *)
Lemma canView_spec_witness :
  canView None Sample.picnicDoc = true
  ∧ canView None Sample.meetingDoc = false
  ∧ (canView (Some Sample.bob) Sample.meetingDoc = true
     ↔ privileged Sample.bob ∨ administers Sample.bob Sample.meetingDoc
       ∨ memberOf Sample.bob Sample.meetingDoc).
Proof.
  split; [|split].
  - apply (canView_spec None Sample.picnicDoc). right. reflexivity.
  - apply (canView_spec None Sample.meetingDoc); [|reflexivity].
    eexists. split; [reflexivity|discriminate].
  - apply (canView_spec (Some Sample.bob) Sample.meetingDoc); [|reflexivity].
    eexists. split; [reflexivity|discriminate].
Defined.

End canEdit.

(** ** Canceling events *)

Ltac js_run :=
  cbv [mbind Js_bind mret Js_ret gets modify throw now user_id
       EventModel.findById EventModel.save EventModel.populate
       EventModel.withAdministrators EventModel.withAdministratorsAndNames
       NotificationModel.create ListModel.findById ListModel.save
       ListModel.populate].

(** Building one notification per identifier reads the clock once per
    identifier, in order. *)
Lemma mapM_stamped (f : ObjectId → Js Notification.t)
    (build : Timestamp → ObjectId → Notification.t) (ids : list ObjectId) :
  (∀ id w, f id w = (Returned (build (clock w (reads w)) id), set_reads S w)) →
  ∀ w, mapM f ids w
       = (Returned (imap (λ i id, build (clock w (reads w + i)) id) ids),
          set_reads (λ r, r + length ids) w).
Proof.
  intros Hf. induction ids as [|id ids IH]; intros w.
  - simpl. unfold mret, Js_ret. f_equal. destruct w; unfold set_reads; simpl.
    f_equal; lia.
  - simpl. unfold mbind, Js_bind. rewrite Hf, IH. unfold mret, Js_ret.
    f_equal.
    + f_equal. f_equal.
      * by rewrite Nat.add_0_r.
      * apply imap_ext. intros i x _. simpl. do 2 f_equal. lia.
    + unfold set_reads; simpl. f_equal. lia.
Qed.

Lemma imap_pointwise {A B} (f : nat → A → B) (g : A → B) (l : list A) :
  (∀ i x, f i x = g x) → imap f l = g <$> l.
Proof.
  intros H. rewrite <-imap_const. apply imap_ext. intros i x _. apply H.
Qed.

(** The same when each notification takes [k] readings of the clock. *)
Lemma mapM_stamped_every (k : nat) (f : ObjectId → Js Notification.t)
    (build : (nat → Timestamp) → nat → ObjectId → Notification.t)
    (ids : list ObjectId) :
  (∀ id w, f id w
           = (Returned (build (clock w) (reads w) id),
              set_reads (λ r, k + r) w)) →
  ∀ w, mapM f ids w
       = (Returned (imap (λ i id, build (clock w) (reads w + k * i) id) ids),
          set_reads (λ r, r + k * length ids) w).
Proof.
  intros Hf. induction ids as [|id ids IH]; intros w.
  - simpl. unfold mret, Js_ret. f_equal. destruct w; unfold set_reads; simpl.
    f_equal; lia.
  - simpl. unfold mbind, Js_bind. rewrite Hf, IH. unfold mret, Js_ret.
    f_equal.
    + f_equal. f_equal.
      * by rewrite Nat.mul_0_r, Nat.add_0_r.
      * apply imap_ext. intros i x _. simpl. f_equal. lia.
    + unfold set_reads; simpl. f_equal. lia.
Qed.

(** Canceling reads the clock once per participant for the notification's
    datetime, and once more for [when] if the event has no datetime. *)
Lemma mapM_cancelNotification doc datetime ids w :
  mapM (EventController.cancelNotification doc datetime) ids w
  = (Returned
       (imap (λ i id,
                Notification.mk id
                  (clock w (reads w
                            + match datetime with Some _ => 1 | None => 2 end * i))
                  (Notification.mkData "event.cancel" doc
                     (Some (llll
                        match datetime with
                        | Some d => Some d
                        | None =>
                            Some (clock w (S (reads w + 2 * i)))
                        end))
                     None None)) ids),
     set_reads
       (λ r, r + match datetime with Some _ => 1 | None => 2 end * length ids)
       w).
Proof.
  destruct datetime as [d|].
  - apply (mapM_stamped_every 1 _
             (λ c r id, Notification.mk id (c r)
                          (Notification.mkData "event.cancel" doc
                             (Some (llll (Some d))) None None))).
    reflexivity.
  - apply (mapM_stamped_every 2 _
             (λ c r id, Notification.mk id (c r)
                          (Notification.mkData "event.cancel" doc
                             (Some (llll (Some (c (S r))))) None None))).
    reflexivity.
Qed.

(** C7. A cancel that the store carries out answers 200, sets [canceled] to
    true and leaves participants and messages as they were; it hands over
    exactly one notification per participant, addressed to the participant's
    id, in order, each with [data.name] equal to "event.cancel". *)
Theorem cancel_notifies_each_participant (req : Request.t unit) (w : World)
    (event : Event.t ObjectId) :
  onFind (faults w) = None →
  onSave (faults w) = None →
  events w !! Request.id req = Some event →
  Event._id event = Request.id req →
  ∃ r w' event' sent,
    EventController.cancel req w = (Returned r, w')
    ∧ status r = 200
    ∧ events w' !! Request.id req = Some event'
    ∧ Event.canceled event' = true
    ∧ Event.participants event' = Event.participants event
    ∧ Event.messages event' = Event.messages event
    ∧ notifications w' = notifications w ++ sent
    ∧ length sent = length (Event.participants event)
    ∧ Notification.user <$> sent = Event.participantIds event
    ∧ Forall (λ n, Notification.name (Notification.data_ n) = "event.cancel")
        sent.
Proof.
  intros Hfind Hsave Hev Hid.
  unfold EventController.cancel. js_run. rewrite Hfind, Hev. simpl.
  rewrite Hsave.
  rewrite mapM_cancelNotification.
  simpl. rewrite Hid.
  eexists _, _, _, _. split; [reflexivity|]. simpl.
  split; [done|]. split; [apply lookup_insert_eq|].
  split; [done|]. split; [done|]. split; [done|]. split; [done|].
  split; [|split].
  - rewrite length_imap. unfold lodash.pluck. by rewrite length_fmap.
  - rewrite fmap_imap. unfold Event.participantIds.
    rewrite (imap_pointwise _ id) by done. apply list_fmap_id.
  - apply Forall_forall. intros n Hn.
    apply elem_of_lookup_imap in Hn as (i & x & -> & _). done.
Qed.

(** ** Participants *)

Section participants.
Import EventController.

Lemma find_participant_None (uid : ObjectId) (ps : list Participant.t) :
  List.find (λ p, equals uid (Participant.participant p)) ps = None
  ↔ uid ∉ Participant.participant <$> ps.
Proof.
  induction ps as [|p ps IH]; simpl.
  - split; [|done]. intros _. apply not_elem_of_nil.
  - rewrite not_elem_of_cons. destruct (equals _ _) eqn:E.
    + apply equals_true in E. split; [done|]. intros [? _]. done.
    + apply equals_false in E. rewrite IH. tauto.
Qed.

Lemma find_participant_defined (uid : ObjectId) (ps : list Participant.t) :
  defined (List.find (λ p, equals uid (Participant.participant p)) ps) = true
  ↔ uid ∈ Participant.participant <$> ps.
Proof.
  destruct (List.find _ ps) eqn:E; simpl.
  - split; [|done]. intros _.
    destruct (decide (uid ∈ Participant.participant <$> ps)) as [|Hn]; [done|].
    apply find_participant_None in Hn. congruence.
  - apply find_participant_None in E. split; [done|]. intros ?. done.
Qed.


Lemma findParticipant_actor {B} (req : Request.t B) (u : User.t) ps w :
  Request.user req = Some u →
  findParticipant req ps w
  = (Returned (List.find (λ p, equals (User._id u) (Participant.participant p)) ps),
     w).
Proof.
  intros Hu. unfold findParticipant, user_id. rewrite Hu. by destruct ps.
Qed.

Lemma findParticipantIndex_actor {B} (req : Request.t B) (u : User.t) ps w :
  Request.user req = Some u →
  findParticipantIndex req ps w
  = (Returned (lodash.findIndex ps
                 (λ p, equals (User._id u) (Participant.participant p))),
     w).
Proof.
  intros Hu. unfold findParticipantIndex, user_id. rewrite Hu. by destruct ps.
Qed.

(** Without an actor the search answers only on an empty list. *)
Lemma findParticipant_anonymous {B} (req : Request.t B) ps w :
  Request.user req = None →
  findParticipant req ps w
  = match ps with
    | [] => (Returned None, w)
    | _ => (Threw (TypeError "Cannot read property '_id' of undefined"), w)
    end.
Proof.
  intros Hu. unfold findParticipant, user_id. rewrite Hu. by destruct ps.
Qed.

Lemma findParticipantIndex_anonymous {B} (req : Request.t B) ps w :
  Request.user req = None →
  findParticipantIndex req ps w
  = match ps with
    | [] => (Returned None, w)
    | _ => (Threw (TypeError "Cannot read property '_id' of undefined"), w)
    end.
Proof.
  intros Hu. unfold findParticipantIndex, user_id. rewrite Hu. by destruct ps.
Qed.



End participants.

(** ** Every handler keeps the participants free of duplicates *)

Section preservation.
Import EventController.

Lemma bind_run {A B} (m : Js A) (f : A → Js B) (w : World) :
  (m ≫= f) w
  = match m w with
    | (Returned a, w') => f a w'
    | (Threw e, w') => (Threw e, w')
    end.
Proof. reflexivity. Qed.

Lemma mapM_withAdministrators (l : list (Event.t ObjectId)) (w : World) :
  mapM EventModel.withAdministrators l w
  = (Returned (EventModel.populateGroups false (groups w) <$> l), w).
Proof.
  induction l as [|e l IH]; [done|].
  change (mapM EventModel.withAdministrators (e :: l))
    with (y ← EventModel.withAdministrators e;
          k ← mapM EventModel.withAdministrators l; mret (y :: k)).
  rewrite bind_run.
  change (EventModel.withAdministrators e w)
    with (Returned (EventModel.populateGroups false (groups w) e), w).
  cbv beta iota. rewrite bind_run, IH. done.
Qed.

Lemma mapM_messageNotification {B} (req : Request.t B) text doc ids w :
  mapM (messageNotification req text doc) ids w
  = (Returned
       (imap (λ i id, Notification.mk id (clock w (reads w + i))
                        (Notification.mkData "event.message" doc None text
                           (Request.user req))) ids),
     set_reads (λ r, r + length ids) w).
Proof.
  apply (mapM_stamped _
           (λ t id, Notification.mk id t
                      (Notification.mkData "event.message" doc None text
                         (Request.user req)))).
  reflexivity.
Qed.






















End preservation.

(** ** Joining, leaving and messaging *)

Section attendance.
Import EventController.




End attendance.

Section messaging.
Import EventController.


End messaging.

(** ** Creating events *)

Section creation.
Import EventController.

(** C4. Whatever the body of a create request holds, also participants and
    messages, an event that the request persists has the actor as creator,
    exactly one participant, the actor, stamped with the clock read while
    the request is handled, and no messages. A request of an actor with a
    place in its body does persist such an event when the store accepts
    it. *)
Theorem create_seeds_the_creator (req : Request.t EventBody.t) (w : World) :
  (∀ id event,
     events (create req w).2 !! id = Some event →
     events w !! id ≠ Some event →
     ∃ u, Request.user req = Some u
          ∧ truthy (EventBody.place (Request.body req)) = true
          ∧ id = EventModel.newId (Request.body req) w
          ∧ Event.creator event = User._id u
          ∧ Event.created event = clock w (reads w)
          ∧ Event.participants event
            = [Participant.mk (User._id u) (clock w (S (reads w)))]
          ∧ Event.messages event = [])
  ∧ (∀ u,
       Request.user req = Some u →
       truthy (EventBody.place (Request.body req)) = true →
       onCreate (faults w) = None →
       events w !! EventModel.newId (Request.body req) w = None →
       ∃ event w',
         create req w = (Returned (json 201 (EventPayload (Plain event) [])), w')
         ∧ events w' !! EventModel.newId (Request.body req) w = Some event
         ∧ Event.participants event
           = [Participant.mk (User._id u) (clock w (S (reads w)))]
         ∧ Event.messages event = []).
Proof.
  split.
  - intros id event. unfold create. simpl.
    destruct (truthy (EventBody.place (Request.body req))) eqn:Hplace; simpl;
      [|by intros ??].
    js_run. destruct (Request.user req) as [u|] eqn:Hu; simpl; [|by intros ??].
    unfold EventModel.create, EventModel.newId. simpl.
    destruct (onCreate (faults w)); simpl; [by intros ??|].
    destruct (events w !! _) eqn:Hfree; simpl; [by intros ??|].
    intros Hnew Hold. exists u.
    rewrite lookup_insert in Hnew. case_decide as Hid; [|done].
    injection Hnew as <-. done.
  - intros u Hu Hplace Hcreate Hfree.
    unfold create. simpl. rewrite Hplace. simpl.
    js_run. rewrite Hu. simpl.
    unfold EventModel.create. simpl. unfold EventModel.newId in *. simpl.
    rewrite Hcreate, Hfree. simpl.
    eexists _, _. split; [reflexivity|]. simpl.
    split; [apply lookup_insert_eq|done].
Qed.

End creation.

(** ** The authorization guards of the handlers *)

Section guards.
Import EventController Authorization.

(** The tests [!canView(req.user)] and [!canEdit(req.user)] are false for
    every actor, present or absent. *)
Lemma guards_never_reject (user : option User.t) :
  negb (lodash.truthy (lodash.curry1 canView user)) = false
  ∧ negb (lodash.truthy (lodash.curry1 canEdit user)) = false.
Proof. split; reflexivity. Qed.

(** Whoever asks, [show] returns the stored event: the guard tests the
    function that [canView(req.user)] yields, which is truthy. *)
Lemma show_ignores_canView (req : Request.t unit) (w : World)
    (event : Event.t ObjectId) :
  onFind (faults w) = None →
  events w !! Request.id req = Some event →
  show req w
  = (Returned (json 200
       (EventPayload (WithGroups (EventModel.populateGroups true (groups w) event))
          [participantNames; posterNames])),
     w).
Proof.
  intros Hfind Hev. unfold show. js_run. rewrite Hfind, Hev. done.
Qed.

(** C1 fails on the code. Carol has no right on the restricted meeting:
    [canView] and [canEdit] are false for her. Yet [show] returns her the
    event, [join] adds her to it, [update] renames it for her and [cancel]
    cancels it, each answering 200. *)
Theorem guards_let_everyone_through :
  let outsider := Sample.request (Some Sample.carol) "e2" () in
  let doc := EventModel.populateGroups true (groups Sample.world) Sample.meeting in
  canView (Some Sample.carol) doc = false
  ∧ canEdit (Some Sample.carol) doc = inr false
  ∧ (show outsider Sample.world).1
    = Returned (json 200 (EventPayload (WithGroups doc)
                            [participantNames; posterNames]))
  ∧ answered (update (Sample.request (Some Sample.carol) "e2" Sample.renamed)
                Sample.world).1 = Some 200
  ∧ Event.name <$>
      events (update (Sample.request (Some Sample.carol) "e2" Sample.renamed)
                Sample.world).2 !! "e2"
    = Some (Some "Hijacked")
  ∧ answered (cancel outsider Sample.world).1 = Some 200
  ∧ Event.canceled <$> events (cancel outsider Sample.world).2 !! "e2"
    = Some true
  ∧ answered (join outsider Sample.world).1 = Some 200
  ∧ Event.participantIds <$> events (join outsider Sample.world).2 !! "e2"
    = Some ["a11ce"; "ca701"].
Proof. vm_compute. repeat split. Qed.

End guards.

(** ** Updating lists *)

Section lists.
Import ListController.

Lemma unpopulate_populated (e : Entry.t) (doc : Place.t) (id : ObjectId) :
  Entry.place e = Some (Populated doc) →
  Place._id doc = Some id → id ≠ "" →
  unpopulate e = Entry.set_place (Some (ById id)) e.
Proof.
  intros He Hid Hne. unfold unpopulate. rewrite He, Hid. simpl.
  by rewrite bool_decide_eq_false_2.
Qed.

Lemma unpopulate_byIdentifier (e : Entry.t) : byIdentifier e → unpopulate e = e.
Proof.
  unfold byIdentifier, unpopulate.
  by destruct (Entry.place e) as [[]|].
Qed.

Lemma unpopulate_submittable (e : Entry.t) :
  submittable e → byIdentifier (unpopulate e).
Proof.
  unfold submittable. destruct (Entry.place e) as [[id|doc]|] eqn:He.
  - intros _. unfold unpopulate, byIdentifier. by rewrite !He.
  - intros (id & Hid & Hne).
    rewrite (unpopulate_populated e doc id) by done. done.
  - intros _. unfold unpopulate, byIdentifier. by rewrite !He.
Qed.

Lemma unpopulate_cases (e : Entry.t) :
  unpopulate e = e ∨ byIdentifier (unpopulate e).
Proof.
  unfold unpopulate, byIdentifier.
  destruct (Entry.place e) as [[id|doc]|] eqn:He; auto.
  destruct (truthy (Place._id doc)) eqn:Ht; auto.
  right. by destruct (Place._id doc).
Qed.

Lemma unpopulate_idempotent (e : Entry.t) :
  unpopulate (unpopulate e) = unpopulate e.
Proof.
  destruct (unpopulate_cases e) as [H|H].
  - by rewrite !H.
  - by apply unpopulate_byIdentifier.
Qed.

(** C9. Un-populating replaces the place of an entry that holds a populated
    place object by the object's [_id]; entries that already reference their
    places by identifier are left as they are, so un-populating twice is
    un-populating once; and the list that an update persists holds the
    submitted entries un-populated, every place by identifier only. *)
Theorem update_stores_places_by_identifier :
  (∀ e doc id,
     Entry.place e = Some (Populated doc) →
     Place._id doc = Some id → id ≠ "" →
     Entry.place (unpopulate e) = Some (ById id)
     ∧ Entry.note (unpopulate e) = Entry.note e)
  ∧ (∀ es : list Entry.t, Forall byIdentifier es → unpopulate <$> es = es)
  ∧ (∀ es : list Entry.t,
       unpopulate <$> (unpopulate <$> es) = unpopulate <$> es)
  ∧ (∀ (req : Request.t ListBody.t) w es stored,
       ListBody.entries (Request.body req) = Some es →
       Forall submittable es →
       onFind (faults w) = None →
       onSave (faults w) = None →
       lists w !! Request.id req = Some stored →
       PlaceList._id stored = Request.id req →
       ∃ out w' saved,
         update req w = (out, w')
         ∧ lists w' !! Request.id req = Some saved
         ∧ PlaceList.entries saved = unpopulate <$> es
         ∧ Forall byIdentifier (PlaceList.entries saved)).
Proof.
  split_and!.
  - intros e doc id He Hid Hne.
    by rewrite (unpopulate_populated e doc id).
  - intros es Hes. induction Hes as [|e es He _ IH]; [done|].
    rewrite fmap_cons, IH. by rewrite unpopulate_byIdentifier.
  - intros es. rewrite <-list_fmap_compose. apply list_fmap_ext.
    intros _ e _. apply unpopulate_idempotent.
  - intros req w es stored Hes Hsub Hfind Hsave Hstored Hid.
    assert (ListBody.entries
              (if truthy (ListBody._id (Request.body req))
               then ListBody.delete__id (Request.body req)
               else Request.body req) = Some es) as Hes'.
    { by destruct (truthy _). }
    unfold update. js_run. simpl. rewrite Hes'. simpl.
    rewrite Hfind, Hstored. simpl. rewrite Hsave. simpl.
    destruct (onPopulate (faults w)); simpl;
      (eexists _, _, _; split; [reflexivity|]); simpl;
      rewrite Hid; (split; [apply lookup_insert_eq|]); simpl;
      (split; [done|]);
      apply Forall_fmap; (eapply Forall_impl; [exact Hsub|]);
      intros e; apply unpopulate_submittable.
Qed.

(** C10. An update request whose body has no [entries] raises before the
    handler looks the list up: it answers nothing, whether the list exists
    or not and whatever the store would have answered, and no stored
    document changes. *)
Theorem update_without_entries_raises (req : Request.t ListBody.t) (w : World) :
  ListBody.entries (Request.body req) = None →
  ∃ w',
    update req w
    = (Threw (TypeError "Cannot read property 'forEach' of undefined"), w')
    ∧ answered (update req w).1 = None
    ∧ lists w' = lists w
    ∧ events w' = events w
    ∧ notifications w' = notifications w.
Proof.
  intros Hes.
  assert (ListBody.entries
            (if truthy (ListBody._id (Request.body req))
             then ListBody.delete__id (Request.body req)
             else Request.body req) = None) as Hes'.
  { by destruct (truthy _). }
  unfold update. js_run. simpl. rewrite Hes'. simpl.
  eexists. split_and!; reflexivity.
Qed.

End lists.

(** ** The theorems at work on the sample world *)

Section witnesses.
Import EventController.



(** Bob's forged body: the event persisted is [Sample.party], with Bob
    alone as participant and no message. *)
Lemma create_seeds_the_creator_witness :
  let req := Sample.request (Some Sample.bob) "" Sample.forged in
  (∃ u, Request.user req = Some u
        ∧ truthy (EventBody.place (Request.body req)) = true
        ∧ "n0" = EventModel.newId (Request.body req) Sample.world
        ∧ Event.creator Sample.party = User._id u
        ∧ Event.created Sample.party = "t0"
        ∧ Event.participants Sample.party = [Participant.mk (User._id u) "t1"]
        ∧ Event.messages Sample.party = [])
  ∧ (∃ event w',
       create req Sample.world
       = (Returned (json 201 (EventPayload (Plain event) [])), w')
       ∧ events w' !! "n0" = Some event
       ∧ Event.participants event = [Participant.mk "b0b" "t1"]
       ∧ Event.messages event = []).
Proof.
  intros req. split.
  - apply (proj1 (create_seeds_the_creator req Sample.world) "n0" Sample.party).
    + vm_compute. reflexivity.
    + vm_compute. discriminate.
  - apply (proj2 (create_seeds_the_creator req Sample.world) Sample.bob);
      vm_compute; reflexivity.
Defined.



(** Canceling the picnic notifies Alice and Bob. *)
Lemma cancel_notifies_each_participant_witness :
  ∃ r w' event' sent,
    cancel (Sample.request (Some Sample.alice) "e1" ()) Sample.world
    = (Returned r, w')
    ∧ status r = 200
    ∧ events w' !! "e1" = Some event'
    ∧ Event.canceled event' = true
    ∧ Event.participants event' = Event.participants Sample.picnic
    ∧ Event.messages event' = Event.messages Sample.picnic
    ∧ notifications w' = notifications Sample.world ++ sent
    ∧ length sent = 2
    ∧ Notification.user <$> sent = ["a11ce"; "b0b"]
    ∧ Forall (λ n, Notification.name (Notification.data_ n) = "event.cancel")
        sent.
Proof.
  apply (cancel_notifies_each_participant
           (Sample.request (Some Sample.alice) "e1" ()) Sample.world
           Sample.picnic);
    reflexivity.
Defined.


(** The itinerary submits a populated harbour: the trip is saved with the
    harbour's identifier in its place. *)
Lemma update_stores_places_by_identifier_witness :
  Entry.place (ListController.unpopulate
                 (Entry.mk (Some (Populated Sample.harbour)) (Some "first stop")))
  = Some (ById "p1")
  ∧ ListController.unpopulate <$> [Entry.mk (Some (ById "p2")) None]
    = [Entry.mk (Some (ById "p2")) None]
  ∧ (∃ out w' saved,
       ListController.update (Sample.request None "l1" Sample.itinerary)
         Sample.world = (out, w')
       ∧ lists w' !! "l1" = Some saved
       ∧ PlaceList.entries saved
         = ListController.unpopulate <$> Sample.submitted
       ∧ Forall byIdentifier (PlaceList.entries saved)).
Proof.
  split_and!.
  - apply (proj1 update_stores_places_by_identifier _ Sample.harbour "p1");
      [reflexivity|reflexivity|discriminate].
  - apply (proj1 (proj2 update_stores_places_by_identifier)).
    repeat constructor.
  - apply (proj2 (proj2 (proj2 update_stores_places_by_identifier))
             (Sample.request None "l1" Sample.itinerary) Sample.world
             Sample.submitted Sample.trip);
      try reflexivity.
    repeat constructor. by exists "p1".
Defined.

(** A body with a name only. *)
Lemma update_without_entries_raises_witness :
  ∃ w',
    ListController.update (Sample.request None "l1" Sample.nameOnly) Sample.world
    = (Threw (TypeError "Cannot read property 'forEach' of undefined"), w')
    ∧ answered (ListController.update (Sample.request None "l1" Sample.nameOnly)
                  Sample.world).1 = None
    ∧ lists w' = lists Sample.world
    ∧ events w' = events Sample.world
    ∧ notifications w' = notifications Sample.world.
Proof.
  apply (update_without_entries_raises
           (Sample.request None "l1" Sample.nameOnly) Sample.world).
  reflexivity.
Defined.

End witnesses.

(** * Further properties of the controllers *)

(** ** What a call does to the stored events *)

Ltac run_call :=
  js_run; cbv [lodash.truthy lodash.curry1 negb];
  repeat match goal with
    | |- context [match onFind ?f with _ => _ end] => destruct (onFind f) eqn:?
    | |- context [match onSave ?f with _ => _ end] => destruct (onSave f) eqn:?
    | |- context [match onCreate ?f with _ => _ end] => destruct (onCreate f) eqn:?
    | |- context [match onPopulate ?f with _ => _ end] =>
        destruct (onPopulate f) eqn:?
    | |- context [match onRemove ?f with _ => _ end] =>
        destruct (onRemove f) eqn:?
    | |- context [match events ?w !! ?i with _ => _ end] =>
        destruct (events w !! i) eqn:?
    | |- context [match lists ?w !! ?i with _ => _ end] =>
        destruct (lists w !! i) eqn:?
    | |- context [match Request.user ?r with _ => _ end] =>
        destruct (Request.user r) eqn:?
    | _ => progress simpl
    end.

Lemma evolves_refl (e : Event.t ObjectId) : evolves e e.
Proof. by repeat split. Qed.

Lemma evolves_trans (e1 e2 e3 : Event.t ObjectId) :
  evolves e1 e2 → evolves e2 e3 → evolves e1 e3.
Proof.
  intros (? & ? & ? & ? & ? & ?) (? & ? & ? & ? & ? & ?).
  split_and!; try congruence; [auto|by etrans].
Qed.

Section shape.
Import EventController.

Ltac unchanged := left; reflexivity.
Ltac written :=
  right; left; eexists _, _, _;
  split_and!;
    [reflexivity|eassumption|reflexivity
    |split_and!; try done; by apply prefix_app_r].

Lemma handle_events_shape (c : Call) (w : World) : eventsShape c w.
Proof.
  unfold eventsShape. destruct c; cbn [handle eventTarget].
  - unfold all. run_call; try unchanged.
    rewrite mapM_withAdministrators. unchanged.
  - unfold index. run_call; try unchanged.
    rewrite mapM_withAdministrators. unchanged.
  - unfold show. run_call; unchanged.
  - unfold create. destruct (negb (truthy _)); [unchanged|].
    unfold EventModel.create, EventModel.ofBody. run_call; try unchanged.
    right; right. eexists _, _. split_and!.
    3: reflexivity. 2: reflexivity. simpl in *. assumption.
  - unfold update. run_call; try unchanged; written.
  - unfold cancel. run_call; try unchanged.
    rewrite mapM_cancelNotification. simpl. written.
  - unfold join. run_call; try unchanged.
    + erewrite findParticipant_actor by eassumption.
      destruct (List.find _ _); run_call; try unchanged; written.
    + rewrite findParticipant_anonymous by assumption.
      destruct (Event.participants _); unchanged.
  - unfold unjoin. run_call; try unchanged.
    destruct (Request.user req) eqn:Hu.
    + erewrite findParticipantIndex_actor by eassumption.
      destruct (lodash.findIndex _ _); run_call; try unchanged; written.
    + rewrite findParticipantIndex_anonymous by assumption.
      destruct (Event.participants _); unchanged.
  - unfold message. run_call; try unchanged.
    + erewrite findParticipant_actor by eassumption.
      destruct (List.find _ _); run_call; try unchanged.
      all: rewrite mapM_messageNotification; run_call; written.
    + rewrite findParticipant_anonymous by assumption.
      destruct (Event.participants _); unchanged.
  - unfold ListController.index, ListModel.find. run_call; unchanged.
  - unfold ListController.show. run_call; unchanged.
  - unfold ListController.create, ListModel.create. run_call; unchanged.
  - unfold ListController.update. js_run.
    destruct (ListBody.entries _); [|unchanged]. run_call; unchanged.
  - unfold ListController.destroy, ListModel.remove. run_call; unchanged.
Qed.

End shape.

(** ** Case analysis over the calls *)

(** Runs the handler of [c] on every path through it and leaves each end
    to [leaf]. *)
Ltac split_participants :=
  match goal with
  | |- context [EventController.findParticipant ?r _] =>
      first
        [ erewrite findParticipant_actor by eassumption;
          destruct (List.find _ _) eqn:?; run_call;
          rewrite ?mapM_messageNotification; run_call
        | rewrite findParticipant_anonymous by assumption;
          destruct (Event.participants _) eqn:? ]
  | |- context [EventController.findParticipantIndex ?r _] =>
      destruct (Request.user r) eqn:?;
      [ erewrite findParticipantIndex_actor by eassumption;
        destruct (lodash.findIndex _ _) eqn:?; run_call
      | rewrite findParticipantIndex_anonymous by assumption;
        destruct (Event.participants _) eqn:? ]
  | _ => idtac
  end.

Ltac split_call c leaf :=
  destruct c; cbn [handle];
  [ unfold EventController.all; run_call;
    rewrite ?mapM_withAdministrators
  | unfold EventController.index; run_call;
    rewrite ?mapM_withAdministrators
  | unfold EventController.show; run_call
  | unfold EventController.create;
    destruct (truthy (EventBody.place _)) eqn:?; simpl;
    unfold EventModel.create, EventModel.ofBody; run_call
  | unfold EventController.update; run_call
  | unfold EventController.cancel; run_call;
    rewrite ?mapM_cancelNotification; simpl
  | unfold EventController.join; run_call; split_participants
  | unfold EventController.unjoin; run_call; split_participants
  | unfold EventController.message; run_call; split_participants
  | unfold ListController.index, ListModel.find; run_call
  | unfold ListController.show; run_call
  | unfold ListController.create, ListModel.create; run_call
  | unfold ListController.update; js_run;
    destruct (ListBody.entries _) eqn:?; run_call
  | unfold ListController.destroy, ListModel.remove; run_call ];
  simpl in *; leaf.

Section calls.

(** The handlers that only read leave the world as it is, and always
    answer. *)
Theorem reading_changes_nothing (c : Call) (w : World) :
  readOnly c = true →
  (handle c w).2 = w ∧ is_Some (answered (handle c w).1).
Proof.
  intros Hc. split_call c ltac:(try discriminate; by split).
Qed.

(** A handler that starts with a query answers 500 with the store's error
    when the query fails, and changes nothing. *)
Theorem failed_query_answers_500 (c : Call) (w : World) (err : StorageError) :
  queriesFirst c = true →
  onFind (faults w) = Some err →
  handle c w = (Returned (handleError err), w).
Proof.
  intros Hc Hfind. split_call c ltac:(try discriminate; congruence).
Qed.

(** A handler that looks an event up answers 404 when there is none, and
    changes nothing. *)
Theorem missing_event_answers_404 (c : Call) (w : World) (id : ObjectId) :
  eventTarget c = Some id →
  onFind (faults w) = None →
  events w !! id = None →
  handle c w = (Returned (send 404), w).
Proof.
  intros Hc Hfind Hev.
  split_call c ltac:(try discriminate; try congruence).
Qed.

(** With a store that refuses every write no call changes a collection or
    hands over a notification, and only the reading handlers succeed. *)
Theorem refused_writes_change_nothing (c : Call) (w : World) :
  readOnlyStore w →
  events (handle c w).2 = events w
  ∧ lists (handle c w).2 = lists w
  ∧ notifications (handle c w).2 = notifications w
  ∧ (readOnly c = false → succeeded (handle c w).1 = false).
Proof.
  intros ([e1 H1] & [e2 H2] & [e3 H3]).
  split_call c ltac:(try congruence; by split_and!).
Qed.

(** The handlers that read [req.user._id] change no collection, hand over
    no notification and do not succeed when the request has no actor. *)
Theorem anonymous_requests_change_nothing (c : Call) (w : World) :
  needsActor c = true →
  actor c = None →
  events (handle c w).2 = events w
  ∧ lists (handle c w).2 = lists w
  ∧ notifications (handle c w).2 = notifications w
  ∧ succeeded (handle c w).1 = false.
Proof.
  intros Hc Hu.
  split_call c ltac:(try discriminate; try congruence; by split_and!).
Qed.

(** The event handlers never write a list, and the list handlers never
    write an event or hand over a notification. *)
Theorem controllers_keep_to_their_collection (c : Call) (w : World) :
  match c with
  | GetLists _ | GetList _ | PostList _ | PutList _ | DeleteList _ =>
      events (handle c w).2 = events w
      ∧ notifications (handle c w).2 = notifications w
  | _ => lists (handle c w).2 = lists w
  end.
Proof. split_call c ltac:(by split_and?). Qed.

(** Notifications are only ever added, only by a cancel or a message that
    found its event, and only to participants of that event. *)
Theorem notifications_go_to_participants (c : Call) (w : World) :
  ∃ sent,
    notifications (handle c w).2 = notifications w ++ sent
    ∧ (sent = []
       ∨ ∃ id e,
           eventTarget c = Some id
           ∧ events w !! id = Some e
           ∧ ((∃ req, c = PostCancel req) ∨ (∃ req, c = PostMessage req))
           ∧ Forall (λ n, Notification.user n ∈ Event.participantIds e) sent).
Proof.
  split_call c ltac:(
    first
      [ by (exists []; split; [by rewrite app_nil_r|by left])
      | eexists; split; [reflexivity|]; right; eexists _, _;
        split_and!; [reflexivity|eassumption|eauto|] ]).
  - apply Forall_forall. intros n Hn.
    apply elem_of_lookup_imap in Hn as (i & x & -> & Hx). simpl.
    by apply list_elem_of_lookup_2 in Hx.
  - apply Forall_forall. intros n Hn.
    apply elem_of_lookup_imap in Hn as (i & x & -> & Hx). simpl.
    apply list_elem_of_lookup_2, list_elem_of_In in Hx.
    unfold lodash.filter in Hx. apply filter_In in Hx as [Hx _].
    by apply list_elem_of_In.
  - apply Forall_forall. intros n Hn.
    apply elem_of_lookup_imap in Hn as (i & x & -> & Hx). simpl.
    apply list_elem_of_lookup_2, list_elem_of_In in Hx.
    unfold lodash.filter in Hx. apply filter_In in Hx as [Hx _].
    by apply list_elem_of_In.
Qed.

End calls.

(** ** Events are kept *)

Section kept.

Lemma handle_keeps_events (c : Call) (w : World) :
  keyed w →
  keyed (handle c w).2
  ∧ ∀ id e, events w !! id = Some e →
      ∃ e', events (handle c w).2 !! id = Some e' ∧ evolves e e'.
Proof.
  intros Hkey.
  destruct (handle_events_shape c w)
    as [Heq|[(id0 & e0 & e0' & _ & He0 & Heq & Hev)|(id0 & e0 & Hfree & Hid & Heq)]].
  - unfold keyed. rewrite Heq. split; [done|].
    intros id e He. exists e. split; [done|apply evolves_refl].
  - pose proof (Hkey _ _ He0) as Hid0. simpl in Hid0.
    unfold keyed. rewrite Heq, Hid0. split.
    + apply map_Forall_insert_2; [|done].
      destruct Hev as (-> & _). done.
    + intros id e He. destruct (decide (id0 = id)) as [->|Hne].
      * exists e0'. rewrite lookup_insert_eq. split; [done|]. congruence.
      * exists e. rewrite lookup_insert_ne by done.
        split; [done|apply evolves_refl].
  - unfold keyed. rewrite Heq. split.
    + by apply map_Forall_insert_2.
    + intros id e He. exists e. rewrite lookup_insert_ne by congruence.
      split; [done|apply evolves_refl].
Qed.

(** Whatever requests are handled, a stored event is never removed, it
    keeps its identifier, creator, creation time and place, once canceled
    it stays canceled, and its messages are kept in place, new ones coming
    after them. *)
Theorem events_are_kept (init w : World) :
  keyed init →
  reachable init w →
  keyed w
  ∧ ∀ id e, events init !! id = Some e →
      ∃ e', events w !! id = Some e' ∧ evolves e e'.
Proof.
  intros Hinit. induction 1 as [|w c _ [Hkey IH]|w w' _ [Hkey IH] Hev].
  - split; [done|]. intros id e He. exists e. split; [done|apply evolves_refl].
  - destruct (handle_keeps_events c w Hkey) as [Hkey' Hstep].
    split; [done|]. intros id e He.
    destruct (IH id e He) as (e1 & He1 & Hev1).
    destruct (Hstep id e1 He1) as (e2 & He2 & Hev2).
    exists e2. split; [done|]. by eapply evolves_trans.
  - unfold keyed. rewrite Hev. done.
Qed.

End kept.

(** ** Listing events *)

Section listing.
Import EventController Authorization.

Lemma elem_of_stored {A} (m : gmap string A) (x : A) :
  x ∈ (snd <$> map_to_list m) ↔ ∃ id, m !! id = Some x.
Proof.
  rewrite list_elem_of_fmap. split.
  - intros ([id y] & -> & Hin). exists id. by apply elem_of_map_to_list.
  - intros (id & Hid). exists (id, x). split; [done|].
    by apply elem_of_map_to_list.
Qed.

Lemma visible_spec (conditions : Event.t ObjectId → bool)
    (user : option User.t) (w : World) (doc : Event.t Group.t) :
  doc ∈ lodash.filter
          (EventModel.populateGroups false (groups w)
             <$> List.filter conditions (snd <$> map_to_list (events w)))
          (canView user)
  ↔ ∃ id stored,
      events w !! id = Some stored
      ∧ conditions stored = true
      ∧ doc = EventModel.populateGroups false (groups w) stored
      ∧ canView user doc = true.
Proof.
  unfold lodash.filter. rewrite list_elem_of_In, filter_In, <-list_elem_of_In.
  rewrite list_elem_of_fmap. simpl. split.
  - intros ((stored & -> & Hin) & Hview).
    apply list_elem_of_In, filter_In in Hin as [Hin Hcond].
    apply list_elem_of_In, elem_of_stored in Hin as (id & Hid).
    by exists id, stored.
  - intros (id & stored & Hid & Hcond & -> & Hview). split; [|done].
    exists stored. split; [done|].
    apply list_elem_of_In, filter_In. split; [|done].
    apply list_elem_of_In, elem_of_stored. by exists id.
Qed.

(** [all] answers with exactly the stored events that [canView] grants
    the actor, each with its restricting groups resolved. *)
Theorem all_returns_the_visible_events (req : Request.t unit) (w : World) :
  onFind (faults w) = None →
  ∃ docs,
    all req w = (Returned (json 200 (EventsPayload docs)), w)
    ∧ ∀ doc, doc ∈ docs
        ↔ ∃ id stored,
            events w !! id = Some stored
            ∧ doc = EventModel.populateGroups false (groups w) stored
            ∧ canView (Request.user req) doc = true.
Proof.
  intros Hfind. unfold all, EventModel.find. js_run. rewrite Hfind. simpl.
  rewrite mapM_withAdministrators. simpl.
  eexists. split; [reflexivity|]. intros doc.
  rewrite visible_spec. split.
  - intros (id & stored & ? & _ & ? & ?). by exists id, stored.
  - intros (id & stored & ? & ? & ?). by exists id, stored.
Qed.

(** [index] answers with exactly the stored events of the place that
    [canView] grants the actor. *)
Theorem index_returns_the_visible_events_of_the_place (req : Request.t unit)
    (w : World) :
  onFind (faults w) = None →
  ∃ docs,
    index req w = (Returned (json 200 (EventsPayload docs)), w)
    ∧ ∀ doc, doc ∈ docs
        ↔ ∃ id stored,
            events w !! id = Some stored
            ∧ Event.place stored = Some (Request.id req)
            ∧ doc = EventModel.populateGroups false (groups w) stored
            ∧ canView (Request.user req) doc = true.
Proof.
  intros Hfind. unfold index, EventModel.find. js_run. rewrite Hfind. simpl.
  rewrite mapM_withAdministrators. simpl.
  eexists. split; [reflexivity|]. intros doc.
  rewrite visible_spec. split.
  - intros (id & stored & ? & Hp & ? & ?). exists id, stored.
    apply bool_decide_eq_true in Hp. done.
  - intros (id & stored & ? & Hp & ? & ?). exists id, stored.
    split_and!; try done. by apply bool_decide_eq_true.
Qed.

(** Whoever [canEdit] grants may also view the event, except a creator
    who is neither privileged nor in a restricting group: such a creator
    may edit a restricted event that [canView] hides. *)
Theorem editors_can_view_unless_only_creator (u : User.t)
    (event : Event.t Group.t) :
  canEdit (Some u) event = inr true →
  canView (Some u) event = true
  ∨ (Event.creator event = User._id u ∧ restricted event
     ∧ ¬ privileged u ∧ ¬ administers u event ∧ ¬ memberOf u event).
Proof.
  intros Hedit. destruct (canView (Some u) event) eqn:Hview; [by left|right].
  unfold canEdit in Hedit. unfold canView in Hview.
  apply orb_false_iff in Hview as [Hab Hc].
  apply orb_false_iff in Hab as [Ha Hb].
  injection Hedit as Hedit. rewrite Hb in Hedit. simpl in Hedit.
  assert (¬ privileged u) as Hpriv.
  { intros Hp. apply privileged_test in Hp. congruence. }
  assert (¬ administers u event) as Hadm.
  { intros (g & Hg & Ha'). apply not_true_iff_false in Hc. apply Hc.
    apply defined_lodash_find. exists g. split; [done|].
    apply orb_true_iff. left. by apply administers_callback. }
  assert (¬ memberOf u event) as Hmem.
  { intros (g & gid & Hg & Hgid & Heq). apply not_true_iff_false in Hc.
    apply Hc. apply defined_lodash_find. exists g. split; [done|].
    apply orb_true_iff. right. apply defined_lodash_find. exists gid.
    split; [done|]. by apply equals_true. }
  split_and!; try done.
  - apply orb_true_iff in Hedit as [He|He].
    + by apply equals_true in He.
    + apply administers_test in He. done.
  - unfold restricted. apply negb_false_iff in Ha.
    destruct (Event.groupRestriction event) as [l|]; [|done].
    exists l. split; [done|]. by destruct l.
Qed.

End listing.

(** ** Updating, joining and leaving *)

Section updating.
Import EventController Authorization.

(** An update that the store carries out writes the submitted name,
    datetime, meetupTime and meetupPlace where they are truthy and keeps
    the stored value where they are absent or empty; it takes the submitted
    groupRestriction when there is one, the empty one included; and it
    leaves participants, messages, place, creator, creation time and
    cancellation as stored, whatever the body holds for them. *)
Theorem update_writes_five_fields (req : Request.t EventBody.t) (w : World)
    (event : Event.t ObjectId) :
  onFind (faults w) = None →
  onSave (faults w) = None →
  events w !! Request.id req = Some event →
  Event._id event = Request.id req →
  let body := Request.body req in
  ∃ event',
    events (update req w).2 !! Request.id req = Some event'
    ∧ coalesced (EventBody.name body) (Event.name event) (Event.name event')
    ∧ coalesced (EventBody.datetime body) (Event.datetime event)
        (Event.datetime event')
    ∧ coalesced (EventBody.meetupTime body) (Event.meetupTime event)
        (Event.meetupTime event')
    ∧ coalesced (EventBody.meetupPlace body) (Event.meetupPlace event)
        (Event.meetupPlace event')
    ∧ Event.groupRestriction event'
      = match EventBody.groupRestriction body with
        | Some gs => Some gs
        | None => Event.groupRestriction event
        end
    ∧ Event.participants event' = Event.participants event
    ∧ Event.messages event' = Event.messages event
    ∧ Event.place event' = Event.place event
    ∧ Event.creator event' = Event.creator event
    ∧ Event.created event' = Event.created event
    ∧ Event.canceled event' = Event.canceled event.
Proof.
  intros Hfind Hsave Hev Hid body.
  unfold update. js_run. rewrite Hfind, Hev. simpl. rewrite Hsave. simpl.
  eexists. split.
  - destruct (onPopulate (faults w)); simpl; rewrite Hid;
      apply lookup_insert_eq.
  - unfold coalesced, or_else. simpl. subst body.
    split_and!; try done;
      try (by match goal with |- context [truthy ?x] => destruct (truthy x) end).
    by destruct (EventBody.groupRestriction (Request.body req)).
Qed.

(** An update that submits an empty groupRestriction lifts the restriction:
    afterwards [canView] grants the event to everyone, the anonymous user
    included. *)
Theorem update_with_no_groups_opens_the_event (req : Request.t EventBody.t)
    (w : World) (event : Event.t ObjectId) :
  onFind (faults w) = None →
  onSave (faults w) = None →
  events w !! Request.id req = Some event →
  Event._id event = Request.id req →
  EventBody.groupRestriction (Request.body req) = Some [] →
  ∃ event',
    events (update req w).2 !! Request.id req = Some event'
    ∧ ∀ user withName,
        canView user
          (EventModel.populateGroups withName (groups (update req w).2) event')
        = true.
Proof.
  intros Hfind Hsave Hev Hid Hgs.
  unfold update. js_run. rewrite Hfind, Hev. simpl. rewrite Hsave. simpl.
  rewrite Hgs. simpl. eexists. split.
  - destruct (onPopulate (faults w)); simpl; rewrite Hid;
      apply lookup_insert_eq.
  - intros [u|] withName; reflexivity.
Qed.

Lemma findIndex_joined (uid : ObjectId) (t : Timestamp)
    (ps : list Participant.t) :
  uid ∉ Participant.participant <$> ps →
  lodash.findIndex (ps ++ [Participant.mk uid t])
    (λ p, equals uid (Participant.participant p)) = Some (length ps).
Proof.
  induction ps as [|p ps IH]; simpl; intros Hn.
  - unfold equals. by rewrite bool_decide_eq_true_2.
  - apply not_elem_of_cons in Hn as [Hp Hn].
    apply equals_false in Hp. rewrite Hp, IH by done. done.
Qed.

(** Joining and then leaving gives the event back as it was stored. *)
Theorem join_then_unjoin_restores_the_event (req : Request.t unit) (w : World)
    (u : User.t) (event : Event.t ObjectId) :
  reliable w →
  Request.user req = Some u →
  events w !! Request.id req = Some event →
  Event._id event = Request.id req →
  User._id u ∉ Event.participantIds event →
  answered (join req w).1 = Some 200
  ∧ answered (unjoin req (join req w).2).1 = Some 200
  ∧ events (unjoin req (join req w).2).2 = events w.
Proof.
  intros (Hfind & _ & Hsave & Hpop & _) Hu Hev Hid Hnin.
  assert (join req w
          = (Returned (json 200
               (EventPayload
                  (WithGroups
                     (EventModel.populateGroups false (groups w)
                        (Event.set_participants
                           (Event.participants event
                            ++ [Participant.mk (User._id u) (clock w (reads w))])
                           event)))
                  [participantNames; posterNames])),
             set_events
               (insert (Request.id req)
                  (Event.set_participants
                     (Event.participants event
                      ++ [Participant.mk (User._id u) (clock w (reads w))])
                     event))
               (set_reads S w))) as Hjoin.
  { unfold join. js_run. rewrite Hfind, Hev. simpl.
    rewrite (findParticipant_actor _ u) by done.
    apply find_participant_None in Hnin. rewrite Hnin, Hu. simpl.
    rewrite Hsave. simpl. rewrite Hpop. simpl. by rewrite Hid. }
  rewrite Hjoin. simpl. split; [done|].
  unfold unjoin. js_run. simpl. rewrite Hfind, lookup_insert_eq. simpl.
  rewrite (findParticipantIndex_actor _ u) by done.
  rewrite findIndex_joined by done. simpl.
  rewrite Hsave. simpl. rewrite Hpop. simpl. split; [done|].
  rewrite Hid, insert_insert_eq.
  rewrite delete_middle, app_nil_r.
  apply insert_id. rewrite Hev. by destruct event.
Qed.

(** When the store saves and then fails to populate, the handler answers
    500 although the change is stored: the join is persisted, and the
    message is persisted and its notifications handed over. *)
Theorem failed_populate_hides_a_stored_change (reqJ : Request.t unit)
    (reqM : Request.t Message.t) (w : World) (u v : User.t)
    (eventJ eventM : Event.t ObjectId) (err : StorageError) :
  onFind (faults w) = None →
  onSave (faults w) = None →
  onPopulate (faults w) = Some err →
  Request.user reqJ = Some u →
  events w !! Request.id reqJ = Some eventJ →
  Event._id eventJ = Request.id reqJ →
  User._id u ∉ Event.participantIds eventJ →
  Request.user reqM = Some v →
  events w !! Request.id reqM = Some eventM →
  Event._id eventM = Request.id reqM →
  User._id v ∈ Event.participantIds eventM →
  ((join reqJ w).1 = Returned (handleError err)
   ∧ ∃ event', events (join reqJ w).2 !! Request.id reqJ = Some event'
               ∧ User._id u ∈ Event.participantIds event')
  ∧ ((message reqM w).1 = Returned (handleError err)
     ∧ (∃ event', events (message reqM w).2 !! Request.id reqM = Some event'
                  ∧ length (Event.messages event')
                    = S (length (Event.messages eventM)))
     ∧ length (notifications (message reqM w).2)
       = length (notifications w)
         + length (lodash.filter (Event.participantIds eventM)
                     (λ id, negb (equals (User._id v) id)))).
Proof.
  intros Hfind Hsave Hpop Hu HevJ HidJ Hnin Hv HevM HidM Hin. split.
  - unfold join. js_run. rewrite Hfind, HevJ. simpl.
    rewrite (findParticipant_actor _ u) by done.
    apply find_participant_None in Hnin. rewrite Hnin, Hu. simpl.
    rewrite Hsave. simpl. rewrite Hpop. simpl. split; [done|].
    eexists. rewrite HidJ. split; [apply lookup_insert_eq|].
    unfold Event.participantIds, lodash.pluck. simpl.
    rewrite fmap_app, elem_of_app. right. simpl. left.
  - unfold message. js_run. rewrite Hfind, HevM. simpl.
    rewrite (findParticipant_actor _ v) by done.
    apply find_participant_defined in Hin. rewrite Hin, Hv. simpl.
    rewrite Hsave. simpl. rewrite mapM_messageNotification. simpl.
    rewrite Hpop. simpl. split_and!; [done| |].
    + eexists. rewrite HidM. split; [apply lookup_insert_eq|].
      simpl. rewrite length_app. simpl. lia.
    + by rewrite length_app, length_imap.
Qed.

(** A create request without a place, absent or empty, is answered 403
    with "An event must have an associated place." and changes nothing,
    whoever sends it. *)
Theorem create_without_place_is_rejected (req : Request.t EventBody.t)
    (w : World) :
  truthy (EventBody.place (Request.body req)) = false →
  create req w
  = (Returned (json 403 (MessagePayload "An event must have an associated place.")),
     w).
Proof. intros Hplace. unfold create. simpl. by rewrite Hplace. Qed.

(** The creator attends the event from its creation on: a join by the
    creator right after the create is answered 403 with "You have already
    joined this event." and changes nothing. *)
Theorem creator_has_already_joined (req : Request.t EventBody.t)
    (req' : Request.t unit) (w : World) (u : User.t) :
  onCreate (faults w) = None →
  onFind (faults w) = None →
  Request.user req = Some u →
  truthy (EventBody.place (Request.body req)) = true →
  events w !! EventModel.newId (Request.body req) w = None →
  Request.user req' = Some u →
  Request.id req' = EventModel.newId (Request.body req) w →
  answered (create req w).1 = Some 201
  ∧ join req' (create req w).2
    = (Returned (json 403 (MessagePayload "You have already joined this event.")),
       (create req w).2).
Proof.
  intros Hcreate Hfind Hu Hplace Hfree Hu' Hid'.
  unfold create. simpl. rewrite Hplace. simpl.
  js_run. rewrite Hu. simpl.
  unfold EventModel.create. simpl. unfold EventModel.newId in *. simpl in *.
  rewrite Hcreate, Hfree. simpl. split; [done|].
  unfold join. js_run. simpl. rewrite Hfind, Hid', lookup_insert_eq. simpl.
  unfold findParticipant, user_id. rewrite Hu'. simpl.
  unfold equals. by rewrite bool_decide_eq_true_2.
Qed.

End updating.

(** ** Lists *)

Section list_handlers.
Import ListController.

(** [index] answers with exactly the stored lists, unfiltered. *)
Theorem index_returns_every_list (req : Request.t unit) (w : World) :
  onFind (faults w) = None →
  ∃ docs,
    index req w = (Returned (json 200 (ListsPayload docs)), w)
    ∧ length docs = size (lists w)
    ∧ ∀ doc, doc ∈ docs ↔ ∃ id, lists w !! id = Some doc.
Proof.
  intros Hfind. unfold index, ListModel.find. js_run. rewrite Hfind. simpl.
  eexists. split_and!; [reflexivity| |].
  - by rewrite length_fmap, length_map_to_list.
  - intros doc. apply elem_of_stored.
Qed.


(** Destroying a stored list answers 204 and removes that list and no
    other; [show] then answers 404. *)
Theorem destroy_removes_the_list (req : Request.t unit) (w : World)
    (doc : PlaceList.t) :
  onFind (faults w) = None →
  onRemove (faults w) = None →
  lists w !! Request.id req = Some doc →
  PlaceList._id doc = Request.id req →
  (destroy req w).1 = Returned (send 204)
  ∧ lists (destroy req w).2 = delete (Request.id req) (lists w)
  ∧ (∀ id, id ≠ Request.id req →
       lists (destroy req w).2 !! id = lists w !! id)
  ∧ show req (destroy req w).2 = (Returned (send 404), (destroy req w).2).
Proof.
  intros Hfind Hremove Hdoc Hid.
  unfold destroy, ListModel.remove. js_run. rewrite Hfind, Hdoc. simpl.
  rewrite Hremove. simpl. rewrite Hid. split_and!; try done.
  - intros id Hne. by rewrite lookup_delete_ne.
  - unfold show. js_run. simpl. by rewrite Hfind, lookup_delete_eq.
Qed.

(** [show], [destroy] and an [update] with entries answer 404 for a list
    that is not stored, and store nothing. *)
Theorem missing_list_answers_404 (req : Request.t unit)
    (req' : Request.t ListBody.t) (w : World) :
  onFind (faults w) = None →
  lists w !! Request.id req = None →
  lists w !! Request.id req' = None →
  is_Some (ListBody.entries (Request.body req')) →
  show req w = (Returned (send 404), w)
  ∧ destroy req w = (Returned (send 404), w)
  ∧ (update req' w).1 = Returned (send 404)
  ∧ lists (update req' w).2 = lists w.
Proof.
  intros Hfind Hnone Hnone' [es Hes].
  assert (ListBody.entries
            (if truthy (ListBody._id (Request.body req'))
             then ListBody.delete__id (Request.body req')
             else Request.body req') = Some es) as Hes'.
  { by destruct (truthy _). }
  split_and!.
  - unfold show. js_run. by rewrite Hfind, Hnone.
  - unfold destroy. js_run. by rewrite Hfind, Hnone.
  - unfold update. js_run. simpl. rewrite Hes'. simpl.
    by rewrite Hfind, Hnone'.
  - unfold update. js_run. simpl. rewrite Hes'. simpl.
    by rewrite Hfind, Hnone'.
Qed.

(** An update that the store carries out writes the list back under its
    identifier with the submitted name when it is truthy and the stored
    name otherwise; the stored entries are dropped for the submitted
    ones, and every other list is left alone. *)
Theorem update_replaces_the_entries (req : Request.t ListBody.t) (w : World)
    (doc : PlaceList.t) (es : list Entry.t) :
  onFind (faults w) = None →
  onSave (faults w) = None →
  lists w !! Request.id req = Some doc →
  PlaceList._id doc = Request.id req →
  ListBody.entries (Request.body req) = Some es →
  ∃ saved,
    lists (update req w).2 = <[Request.id req := saved]> (lists w)
    ∧ PlaceList._id saved = Request.id req
    ∧ coalesced (ListBody.name (Request.body req)) (PlaceList.name doc)
        (PlaceList.name saved)
    ∧ length (PlaceList.entries saved) = length es
    ∧ Entry.note <$> PlaceList.entries saved = Entry.note <$> es.
Proof.
  intros Hfind Hsave Hdoc Hid Hes.
  assert (ListBody.entries
            (if truthy (ListBody._id (Request.body req))
             then ListBody.delete__id (Request.body req)
             else Request.body req) = Some es) as Hes'.
  { by destruct (truthy _). }
  assert (ListBody.name
            (if truthy (ListBody._id (Request.body req))
             then ListBody.delete__id (Request.body req)
             else Request.body req) = ListBody.name (Request.body req))
    as Hname.
  { by destruct (truthy _). }
  unfold update. js_run. simpl. rewrite Hes'. simpl.
  rewrite Hfind, Hdoc. simpl. rewrite Hsave. simpl. rewrite Hname.
  eexists. split.
  - destruct (onPopulate (faults w)); simpl; rewrite Hid; reflexivity.
  - simpl. split_and!; try done.
    + unfold coalesced, or_else. by destruct (truthy (ListBody.name (Request.body req))).
    + by rewrite length_fmap.
    + rewrite <-list_fmap_compose. apply list_fmap_ext. intros _ e _.
      unfold unpopulate. simpl.
      destruct (Entry.place e) as [[|p]|]; try done.
      by destruct (truthy (Place._id p)).
Qed.

End list_handlers.

(** ** The further properties at work on the sample worlds *)

Section scenarios.
Import EventController Authorization.

Ltac evaluated := vm_compute; first [reflexivity | discriminate | exact I].
Ltac member :=
  cbv [attendsOnce Event.participantIds lodash.pluck]; simpl;
  refine (bool_decide_unpack _ _); vm_compute; exact I.

Lemma Sample_world_keyed : keyed Sample.world.
Proof.
  unfold keyed, Sample.world. simpl.
  apply map_Forall_insert_2; [reflexivity|].
  apply map_Forall_singleton. reflexivity.
Defined.

Lemma reading_changes_nothing_witness :
  let c := GetEvents (Sample.request None "" ()) in
  (handle c Sample.world).2 = Sample.world
  ∧ is_Some (answered (handle c Sample.world).1).
Proof.
  intros c. apply (reading_changes_nothing c Sample.world). reflexivity.
Defined.

Lemma failed_query_answers_500_witness :
  handle (PostJoin (Sample.request (Some Sample.carol) "e1" ()))
    Scenario.failing
  = (Returned (handleError Scenario.down), Scenario.failing).
Proof.
  apply (failed_query_answers_500
           (PostJoin (Sample.request (Some Sample.carol) "e1" ()))
           Scenario.failing Scenario.down);
    reflexivity.
Defined.

Lemma missing_event_answers_404_witness :
  handle (PostCancel (Sample.request (Some Sample.alice) "e404" ()))
    Sample.world
  = (Returned (send 404), Sample.world).
Proof.
  apply (missing_event_answers_404
           (PostCancel (Sample.request (Some Sample.alice) "e404" ()))
           Sample.world "e404");
    evaluated.
Defined.

Lemma refused_writes_change_nothing_witness :
  let c := PostJoin (Sample.request (Some Sample.carol) "e1" ()) in
  events (handle c Scenario.locked).2 = events Scenario.locked
  ∧ lists (handle c Scenario.locked).2 = lists Scenario.locked
  ∧ notifications (handle c Scenario.locked).2 = notifications Scenario.locked
  ∧ (readOnly c = false → succeeded (handle c Scenario.locked).1 = false).
Proof.
  intros c. apply (refused_writes_change_nothing c Scenario.locked).
  split_and!; eexists; reflexivity.
Defined.

Lemma anonymous_requests_change_nothing_witness :
  let c := PostMessage (Sample.request None "e1" Sample.hello) in
  events (handle c Sample.world).2 = events Sample.world
  ∧ lists (handle c Sample.world).2 = lists Sample.world
  ∧ notifications (handle c Sample.world).2 = notifications Sample.world
  ∧ succeeded (handle c Sample.world).1 = false.
Proof.
  intros c. apply (anonymous_requests_change_nothing c Sample.world);
    reflexivity.
Defined.

Lemma events_are_kept_witness :
  let w := (handle (PostMessage (Sample.request (Some Sample.alice) "e1"
                                   Sample.hello))
              (handle (PostCancel (Sample.request (Some Sample.alice) "e1" ()))
                 Sample.world).2).2 in
  keyed w
  ∧ ∀ id e, events Sample.world !! id = Some e →
      ∃ e', events w !! id = Some e' ∧ evolves e e'.
Proof.
  intros w. apply (events_are_kept Sample.world w).
  - exact Sample_world_keyed.
  - apply reach_call, reach_call, reach_init.
Defined.

Lemma all_returns_the_visible_events_witness :
  let req := Sample.request (Some Sample.carol) "" () in
  ∃ docs,
    all req Sample.world = (Returned (json 200 (EventsPayload docs)), Sample.world)
    ∧ ∀ doc, doc ∈ docs
        ↔ ∃ id stored,
            events Sample.world !! id = Some stored
            ∧ doc = EventModel.populateGroups false (groups Sample.world) stored
            ∧ canView (Request.user req) doc = true.
Proof.
  intros req. apply (all_returns_the_visible_events req Sample.world).
  reflexivity.
Defined.

Lemma index_returns_the_visible_events_of_the_place_witness :
  let req := Sample.request (Some Sample.bob) "p1" () in
  ∃ docs,
    index req Sample.world
    = (Returned (json 200 (EventsPayload docs)), Sample.world)
    ∧ ∀ doc, doc ∈ docs
        ↔ ∃ id stored,
            events Sample.world !! id = Some stored
            ∧ Event.place stored = Some (Request.id req)
            ∧ doc = EventModel.populateGroups false (groups Sample.world) stored
            ∧ canView (Request.user req) doc = true.
Proof.
  intros req.
  apply (index_returns_the_visible_events_of_the_place req Sample.world).
  reflexivity.
Defined.

(** Carol created the retreat: she may edit it and may not view it. *)
Lemma editors_can_view_unless_only_creator_witness :
  canView (Some Sample.carol) Scenario.retreatDoc = true
  ∨ (Event.creator Scenario.retreatDoc = User._id Sample.carol
     ∧ restricted Scenario.retreatDoc
     ∧ ¬ privileged Sample.carol
     ∧ ¬ administers Sample.carol Scenario.retreatDoc
     ∧ ¬ memberOf Sample.carol Scenario.retreatDoc).
Proof.
  apply (editors_can_view_unless_only_creator Sample.carol Scenario.retreatDoc).
  reflexivity.
Defined.

Lemma update_writes_five_fields_witness :
  let req := Sample.request (Some Sample.alice) "e2" Scenario.opened in
  ∃ event',
    events (update req Sample.world).2 !! "e2" = Some event'
    ∧ coalesced (Some "Open meeting") (Event.name Sample.meeting)
        (Event.name event')
    ∧ coalesced None (Event.datetime Sample.meeting) (Event.datetime event')
    ∧ coalesced None (Event.meetupTime Sample.meeting) (Event.meetupTime event')
    ∧ coalesced (Some "") (Event.meetupPlace Sample.meeting)
        (Event.meetupPlace event')
    ∧ Event.groupRestriction event' = Some []
    ∧ Event.participants event' = Event.participants Sample.meeting
    ∧ Event.messages event' = Event.messages Sample.meeting
    ∧ Event.place event' = Event.place Sample.meeting
    ∧ Event.creator event' = Event.creator Sample.meeting
    ∧ Event.created event' = Event.created Sample.meeting
    ∧ Event.canceled event' = Event.canceled Sample.meeting.
Proof.
  intros req.
  apply (update_writes_five_fields req Sample.world Sample.meeting);
    reflexivity.
Defined.

Lemma update_with_no_groups_opens_the_event_witness :
  let req := Sample.request (Some Sample.alice) "e2" Scenario.opened in
  ∃ event',
    events (update req Sample.world).2 !! Request.id req = Some event'
    ∧ ∀ user withName,
        canView user
          (EventModel.populateGroups withName
             (groups (update req Sample.world).2) event')
        = true.
Proof.
  intros req.
  apply (update_with_no_groups_opens_the_event req Sample.world Sample.meeting);
    reflexivity.
Defined.

Lemma join_then_unjoin_restores_the_event_witness :
  let req := Sample.request (Some Sample.carol) "e1" () in
  answered (join req Sample.world).1 = Some 200
  ∧ answered (unjoin req (join req Sample.world).2).1 = Some 200
  ∧ events (unjoin req (join req Sample.world).2).2 = events Sample.world.
Proof.
  intros req.
  apply (join_then_unjoin_restores_the_event req Sample.world Sample.carol
           Sample.picnic);
    try reflexivity.
  - by split_and!.
  - member.
Defined.

Lemma failed_populate_hides_a_stored_change_witness :
  let reqJ := Sample.request (Some Sample.carol) "e1" () in
  let reqM := Sample.request (Some Sample.alice) "e1" Sample.hello in
  ((join reqJ Scenario.halfway).1 = Returned (handleError Scenario.down)
   ∧ ∃ event', events (join reqJ Scenario.halfway).2 !! "e1" = Some event'
               ∧ "ca701" ∈ Event.participantIds event')
  ∧ ((message reqM Scenario.halfway).1 = Returned (handleError Scenario.down)
     ∧ (∃ event', events (message reqM Scenario.halfway).2 !! "e1" = Some event'
                  ∧ length (Event.messages event')
                    = S (length (Event.messages Sample.picnic)))
     ∧ length (notifications (message reqM Scenario.halfway).2)
       = length (notifications Scenario.halfway)
         + length (lodash.filter (Event.participantIds Sample.picnic)
                     (λ id, negb (equals "a11ce" id)))).
Proof.
  intros reqJ reqM.
  apply (failed_populate_hides_a_stored_change reqJ reqM Scenario.halfway
           Sample.carol Sample.alice Sample.picnic Sample.picnic Scenario.down);
    try reflexivity; member.
Defined.

Lemma create_without_place_is_rejected_witness :
  create (Sample.request (Some Sample.bob) "" Sample.renamed) Sample.world
  = (Returned (json 403 (MessagePayload "An event must have an associated place.")),
     Sample.world).
Proof.
  apply (create_without_place_is_rejected
           (Sample.request (Some Sample.bob) "" Sample.renamed) Sample.world).
  reflexivity.
Defined.

Lemma creator_has_already_joined_witness :
  let req := Sample.request (Some Sample.bob) "" Sample.forged in
  let req' := Sample.request (Some Sample.bob) "n0" () in
  answered (create req Sample.world).1 = Some 201
  ∧ join req' (create req Sample.world).2
    = (Returned (json 403 (MessagePayload "You have already joined this event.")),
       (create req Sample.world).2).
Proof.
  intros req req'.
  apply (creator_has_already_joined req req' Sample.world Sample.bob);
    evaluated.
Defined.

Lemma index_returns_every_list_witness :
  let req := Sample.request None "" () in
  ∃ docs,
    ListController.index req Sample.world
    = (Returned (json 200 (ListsPayload docs)), Sample.world)
    ∧ length docs = size (lists Sample.world)
    ∧ ∀ doc, doc ∈ docs ↔ ∃ id, lists Sample.world !! id = Some doc.
Proof.
  intros req. apply (index_returns_every_list req Sample.world). reflexivity.
Defined.


Lemma destroy_removes_the_list_witness :
  let req := Sample.request None "l1" () in
  (ListController.destroy req Sample.world).1 = Returned (send 204)
  ∧ lists (ListController.destroy req Sample.world).2
    = delete "l1" (lists Sample.world)
  ∧ (∀ id, id ≠ "l1" →
       lists (ListController.destroy req Sample.world).2 !! id
       = lists Sample.world !! id)
  ∧ ListController.show req (ListController.destroy req Sample.world).2
    = (Returned (send 404), (ListController.destroy req Sample.world).2).
Proof.
  intros req.
  apply (destroy_removes_the_list req Sample.world Sample.trip); reflexivity.
Defined.

Lemma missing_list_answers_404_witness :
  let req := Sample.request None "l404" () in
  let req' := Sample.request None "l404" Sample.itinerary in
  ListController.show req Sample.world = (Returned (send 404), Sample.world)
  ∧ ListController.destroy req Sample.world
    = (Returned (send 404), Sample.world)
  ∧ (ListController.update req' Sample.world).1 = Returned (send 404)
  ∧ lists (ListController.update req' Sample.world).2 = lists Sample.world.
Proof.
  intros req req'.
  apply (missing_list_answers_404 req req' Sample.world); try evaluated.
  eexists. reflexivity.
Defined.

Lemma update_replaces_the_entries_witness :
  let req := Sample.request None "l1" Sample.itinerary in
  ∃ saved,
    lists (ListController.update req Sample.world).2
    = <["l1" := saved]> (lists Sample.world)
    ∧ PlaceList._id saved = "l1"
    ∧ coalesced (Some "Road trip") (PlaceList.name Sample.trip)
        (PlaceList.name saved)
    ∧ length (PlaceList.entries saved) = length Sample.submitted
    ∧ Entry.note <$> PlaceList.entries saved = Entry.note <$> Sample.submitted.
Proof.
  intros req.
  apply (update_replaces_the_entries req Sample.world Sample.trip
           Sample.submitted);
    reflexivity.
Defined.

End scenarios.
